(** * The API gateway of the e-commerce platform, as an Express middleware stack

    A shallow embedding of the gateway's main module (the file of
    [services/api-gateway/src] that builds [app] and calls [app.listen])
    and of [services/api-gateway/src/routes/health.js].

    The gateway is an Express 4 application: an ordered stack of layers
    ([app.use], [app.get]) walked from the top for every request.  The
    packages it configures are modelled by their documented contracts:
    - [express]: mount-path matching ([path-to-regexp], case insensitive,
      non strict, [end: false] for [app.use]), route matching for
      [router.get], error middleware;
    - [express-rate-limit] with its in-memory store: one hit counter per
      client key, cleared when the window elapses;
    - [http-proxy-middleware]: forward the request to [target], relay the
      reply, call [onError] when the connection fails;
    - [helmet], [cors], the body parsers and [swagger-ui-express] carry no
      option that the properties below depend on: they are fields of a
      [vendor] record and every theorem holds for each behaviour of them. *)

From Stdlib Require Import String Ascii ZArith QArith Qround List Bool Lia.
From stdpp Require Import base strings gmap list fin_maps.
Import ListNotations.
Local Open Scope string_scope.

(** ** JavaScript values *)

Module Js.

(** [a || b] where [a] is a string or [undefined]: the empty string is
    falsy as well. *)
Definition or_else (a : option string) (b : string) : string :=
  match a with
  | Some s => if String.eqb s "" then b else s
  | None => b
  end.

(** An [Error] object: what [err.message] and [err.stack] read. *)
Record error := Error { message : string; stack : string }.

(** The JSON values the gateway writes. *)
#[warnings="-register-all"]
Inductive json :=
| JString (s : string)
| JNumber (q : Q)
| JObject (fields : list (string * json)).

Definition field (k : string) (j : json) : option json :=
  match j with
  | JObject fs => snd <$> List.find (fun kv => String.eqb (fst kv) k) fs
  | _ => None
  end.


(** [Math.round]: the nearest integer, halves towards plus infinity. *)
Definition Math_round (q : Q) : Z := Qfloor (q + (1 # 2)).

(** The value of a hexadecimal digit. *)
Definition hex_digit (c : ascii) : option N :=
  let n := N_of_ascii c in
  if (48 <=? n)%N && (n <=? 57)%N then Some (n - 48)%N
  else if (65 <=? n)%N && (n <=? 70)%N then Some (n - 55)%N
  else if (97 <=? n)%N && (n <=? 102)%N then Some (n - 87)%N
  else None.

(** The first octet of a UTF-8 sequence of more than one octet: how many
    octets follow, and the range the next one must lie in. *)
Definition utf8_lead (b : N) : option (nat * N * N) :=
  if (194 <=? b)%N && (b <=? 223)%N then Some (1%nat, 128, 191)%N
  else if (b =? 224)%N then Some (2%nat, 160, 191)%N
  else if (225 <=? b)%N && (b <=? 236)%N then Some (2%nat, 128, 191)%N
  else if (b =? 237)%N then Some (2%nat, 128, 159)%N
  else if (238 <=? b)%N && (b <=? 239)%N then Some (2%nat, 128, 191)%N
  else if (b =? 240)%N then Some (3%nat, 144, 191)%N
  else if (241 <=? b)%N && (b <=? 243)%N then Some (3%nat, 128, 191)%N
  else if (b =? 244)%N then Some (3%nat, 128, 143)%N
  else None.

(** [decodeURIComponent(s)] returns: every percent sign starts an escape
    of two hexadecimal digits, and the escaped octets are well-formed
    UTF-8.  [need] octets of a sequence are still expected, the next one
    between [lo] and [hi]. *)
Fixpoint decodes_from (need : nat) (lo hi : N) (s : string) : bool :=
  match s with
  | EmptyString => match need with O => true | S _ => false end
  | String c s1 =>
      if Ascii.eqb c "%" then
        match s1 with
        | String a (String b s2) =>
            match hex_digit a, hex_digit b with
            | Some x, Some y =>
                let octet := (16 * x + y)%N in
                match need with
                | O =>
                    if (octet <? 128)%N then decodes_from 0 0 0 s2
                    else match utf8_lead octet with
                         | Some (n, lo', hi') => decodes_from n lo' hi' s2
                         | None => false
                         end
                | S need' =>
                    if (lo <=? octet)%N && (octet <=? hi)%N
                    then decodes_from need' 128 191 s2 else false
                end
            | _, _ => false
            end
        | _ => false
        end
      else match need with O => decodes_from 0 0 0 s1 | S _ => false end
  end.

Definition decodable (s : string) : bool := decodes_from 0 0 0 s.

(** [s.split(',')] *)
Fixpoint split_on (sep : ascii) (s : string) : list string :=
  match s with
  | EmptyString => [EmptyString]
  | String c s' =>
      if Ascii.eqb c sep then EmptyString :: split_on sep s'
      else match split_on sep s' with
           | w :: ws => String c w :: ws
           | [] => [String c EmptyString]
           end
  end.

End Js.

(** ** Process environment *)

Record environment := {
  PORT : option string;
  NODE_ENV : option string;
  ALLOWED_ORIGINS : option string;
  USER_SERVICE_URL : option string;
  PRODUCT_SERVICE_URL : option string;
  ORDER_SERVICE_URL : option string
}.

Record mem_usage := { rss : Z; heapTotal : Z; heapUsed : Z }.

(** What the handlers read from [process] and from the clock.
    [process.memoryUsage()] throws when the operating system refuses the
    query. *)
Record process := {
  env : environment;
  now : string;                       (* new Date().toISOString() *)
  uptime : Q;                         (* process.uptime() *)
  memoryUsage : Js.error + mem_usage  (* process.memoryUsage() *)
}.

(** ** HTTP messages *)

Inductive http_method := GET | HEAD | POST | PUT | PATCH | DELETE | OPTIONS.

Definition method_name (m : http_method) : string :=
  match m with
  | GET => "GET" | HEAD => "HEAD" | POST => "POST" | PUT => "PUT"
  | PATCH => "PATCH" | DELETE => "DELETE" | OPTIONS => "OPTIONS"
  end.

Abbreviation headers := (gmap string string).

(** An inbound request.  [path] is the path name of the request target and
    [search] its query part (empty, or starting with a question mark), so
    that [req.originalUrl] is their concatenation. *)
Record request := {
  method : http_method;
  path : string;
  search : string;
  ip : string;
  req_headers : headers;
  req_body : string
}.

Definition originalUrl (r : request) : string := path r ++ search r.

Inductive payload :=
| PEmpty
| PText (s : string)
| PJson (j : Js.json).

Record response := {
  status : Z;
  res_headers : headers;
  body : payload
}.

(** ** Upstream services *)

Inductive upstream := UserService | ProductService | OrderService.

Inductive failure := Refused | DnsFailure | TimedOut.

(** What happens to a request sent to a target: the upstream answers, the
    connection fails with an error, or nothing ever comes back. *)
Inductive upstream_reply :=
| Replied (r : response)
| ConnFailed (f : failure) (e : Js.error)
| Silent.

(** The request as the proxy sends it: base URL, method and rewritten
    URL.  The body is not part of the call: the proxy pipes what the body
    parsers in front of it have left of the request stream. *)
Record upstream_call := {
  call_target : string;
  call_method : http_method;
  call_url : string
}.

Abbreviation world := (upstream_call -> upstream_reply).

(** ** Server-side log *)

Inductive level := Info | Err.

Record log_entry := {
  log_level : level;
  log_text : string;
  log_error : option Js.error
}.

(** ** Express: matching and dispatch *)

Module Express.

(** Case folding of the [i] flag on the characters of a path. *)
Definition lower (c : ascii) : ascii :=
  let n := nat_of_ascii c in
  if (65 <=? n)%nat && (n <=? 90)%nat then ascii_of_nat (n + 32) else c.

(** [ci_strip p s]: [s] starts with [p] up to case; the rest of [s]. *)
Fixpoint ci_strip (p s : string) : option string :=
  match p with
  | EmptyString => Some s
  | String c p' =>
      match s with
      | EmptyString => None
      | String d s' =>
          if Ascii.eqb (lower c) (lower d) then ci_strip p' s' else None
      end
  end.

Fixpoint chop_slash (s : string) : string :=
  match s with
  | EmptyString => EmptyString
  | String c EmptyString => if Ascii.eqb c "/" then EmptyString else s
  | String c s' => String c (chop_slash s')
  end.

(** [app.use(mount, ...)]: the layer's regular expression is the mount
    path without its trailing slash, an optional slash, and a look-ahead
    for a slash or the end: [^\/api\/users\/?(?=\/|$)] with flag [i].
    The result is [req.url] inside the layer: the matched part trimmed
    off, with a leading slash. *)
Definition use_match (mount pathname : string) : option string :=
  match ci_strip (chop_slash mount) pathname with
  | Some EmptyString => Some "/"
  | Some (String "/" rest) =>
      match rest with
      | EmptyString => Some "/"
      | String "/" _ => Some rest
      | _ => Some (String "/" rest)
      end
  | _ => None
  end.

(** [router.get(route, ...)]: the whole path, up to case and one
    trailing slash: [^\/ready\/?$] with flag [i]. *)
Definition route_match (route pathname : string) : bool :=
  match ci_strip (chop_slash route) pathname with
  | Some EmptyString | Some (String "/" EmptyString) => true
  | _ => false
  end.

(** A [get] route answers GET, and HEAD when no [head] route exists. *)
Definition get_method (m : http_method) : bool :=
  match m with GET | HEAD => true | _ => false end.

(** The stages of the gateway's stack, in the order of the main module. *)
Inductive stage :=
| Helmet | Cors | RateLimiter | JsonParser | UrlencodedParser
| RequestLogger | ApiDocs | HealthRouter
| Proxy (u : upstream)
| RootEndpoint | NotFoundHandler | ErrorHandler | FinalHandler.

(** What a request has touched so far: the rate limiter's store, the
    headers set on [res], the log, the layers entered and the calls made
    to upstreams. *)
Record ctx := {
  hits : gmap string nat;
  out_headers : headers;
  logs : list log_entry;
  visited : list stage;
  sent : list (upstream * upstream_call)
}.

Definition set_hits (h : gmap string nat) (c : ctx) : ctx :=
  {| hits := h; out_headers := out_headers c; logs := logs c;
     visited := visited c; sent := sent c |}.

Definition set_headers (h : headers) (c : ctx) : ctx :=
  {| hits := hits c; out_headers := h ∪ out_headers c; logs := logs c;
     visited := visited c; sent := sent c |}.

Definition log (e : log_entry) (c : ctx) : ctx :=
  {| hits := hits c; out_headers := out_headers c; logs := logs c ++ [e];
     visited := visited c; sent := sent c |}.

Definition visit (s : stage) (c : ctx) : ctx :=
  {| hits := hits c; out_headers := out_headers c; logs := logs c;
     visited := visited c ++ [s]; sent := sent c |}.

Definition send (u : upstream) (k : upstream_call) (c : ctx) : ctx :=
  {| hits := hits c; out_headers := out_headers c; logs := logs c;
     visited := visited c; sent := sent c ++ [(u, k)] |}.

(** How a handler leaves: [next()], [next(err)], a response written, or
    neither (the request stays open). *)
Inductive step :=
| Next (c : ctx)
| NextErr (e : Js.error) (c : ctx)
| End (r : response) (c : ctx)
| Open (c : ctx).

(** The body [res.send] writes: none for a HEAD request. *)
Definition written (r : request) (b : payload) : payload :=
  match method r with
  | HEAD => PEmpty
  | _ => b
  end.

(** [res.status(n).json(j)] and [res.status(n).send(text)]; the headers
    are those set on [res] so far. *)
Definition res_json (r : request) (n : Z) (j : Js.json) (c : ctx) : step :=
  End {| status := n; res_headers := out_headers c;
         body := written r (PJson j) |} c.

Definition res_send (r : request) (n : Z) (s : string) (c : ctx) : step :=
  End {| status := n; res_headers := out_headers c;
         body := written r (PText s) |} c.

Abbreviation handler := (string -> request -> ctx -> step).
Abbreviation error_handler := (Js.error -> request -> ctx -> step).

Inductive matcher :=
| Everything                       (* app.use(fn) *)
| Star                             (* app.use('*', fn) *)
| Mount (prefix : string)          (* app.use(prefix, fn) *)
| GetRoute (route : string).       (* app.get(route, fn) *)

(** The error of [decode_param] on a path [decodeURIComponent] rejects. *)
Definition decode_error (pathname : string) : Js.error :=
  Js.Error ("Failed to decode param '" ++ pathname ++ "'")
           "URIError: URI malformed".

(** The star layer takes the whole path as a parameter and decodes it:
    matching throws when the path does not decode, and the error goes to
    the error middleware. *)
Definition match_error (m : matcher) (r : request) : option Js.error :=
  match m with
  | Star =>
      if Js.decodable (path r) then None else Some (decode_error (path r))
  | _ => None
  end.

Definition matches (m : matcher) (r : request) : option string :=
  match m with
  | Everything => Some (path r)
  | Star => Some (path r)
  | Mount p => use_match p (path r)
  | GetRoute p =>
      if get_method (method r) && route_match p (path r)
      then Some (path r) else None
  end.

Inductive layer :=
| Use (m : matcher) (s : stage) (h : handler)
| UseError (s : stage) (h : error_handler).

(** The end of one request. *)
Record outcome := {
  reply : option response;
  final : ctx
}.

(** Express's own last resort when the stack is exhausted. *)
Definition finalhandler (err : option Js.error) (r : request) (c : ctx)
  : outcome :=
  let c := visit FinalHandler c in
  {| reply := Some {| status := match err with Some _ => 500 | None => 404 end;
                      res_headers := out_headers c;
                      body := written r
                                (PText ("Cannot " ++ method_name (method r)
                                        ++ " " ++ originalUrl r)) |};
     final := c |}.

Definition finish (s : step) (k : option Js.error -> ctx -> outcome)
  : outcome :=
  match s with
  | Next c => k None c
  | NextErr e c => k (Some e) c
  | End r c => {| reply := Some r; final := c |}
  | Open c => {| reply := None; final := c |}
  end.

(** Walk the stack: a layer is entered when it matches the request and
    its arity fits (error middleware only while an error is pending). *)
Fixpoint dispatch (stack : list layer) (r : request)
                  (err : option Js.error) (c : ctx) : outcome :=
  match stack with
  | [] => finalhandler err r c
  | Use m s h :: rest =>
      match err, match_error m r, matches m r with
      | None, Some e, _ => dispatch rest r (Some e) c
      | None, None, Some url => finish (h url r (visit s c)) (dispatch rest r)
      | _, _, _ => dispatch rest r err c
      end
  | UseError s h :: rest =>
      match err with
      | Some e => finish (h e r (visit s c)) (dispatch rest r)
      | None => dispatch rest r err c
      end
  end.

End Express.

(** ** express-rate-limit *)

Module RateLimit.
Import Express.

Record options := {
  windowMs : Z;
  max : nat;
  message : string
}.

(** The middleware [rateLimit(options)] with the in-memory store, keyed by
    [req.ip]: count the hit, then reject with 429 and [message] once the
    count exceeds [max].  [limit_headers max count] are the rate-limit
    headers the package sets on every response. *)
Definition rateLimit (o : options) (limit_headers : nat -> nat -> headers)
  : handler :=
  fun _ r c =>
    let n := S (default 0%nat (hits c !! ip r)) in
    let c := set_headers (limit_headers (max o) n)
               (set_hits (<[ip r := n]> (hits c)) c) in
    if (max o <? n)%nat then res_send r 429 (message o) c else Next c.

(** The store's timer, every [windowMs]: all counters are dropped. *)
Definition resetAll (h : gmap string nat) : gmap string nat := ∅.

End RateLimit.

(** ** http-proxy-middleware *)

Module Proxy.
Import Express.

Record options := {
  target : string;
  changeOrigin : bool;
  pathRewrite : list (string * string);
  onError : Js.error -> request -> ctx -> step
}.

Fixpoint strip_prefix (p s : string) : option string :=
  match p with
  | EmptyString => Some s
  | String c p' =>
      match s with
      | EmptyString => None
      | String d s' => if Ascii.eqb c d then strip_prefix p' s' else None
      end
  end.

Fixpoint replace_first (lit v s : string) : option string :=
  match strip_prefix lit s with
  | Some rest => Some (v ++ rest)
  | None =>
      match s with
      | EmptyString => None
      | String c s' => String c <$> replace_first lit v s'
      end
  end.

(** One [pathRewrite] entry.  The keys the gateway uses are regular
    expressions without operators other than the anchor: [^/api/users]
    matches the paths that start with that text. *)
Definition apply_rule (key value url : string) : option string :=
  match key with
  | String "^" lit => (fun rest => value ++ rest) <$> strip_prefix lit url
  | _ => replace_first key value url
  end.

(** The first rule that matches rewrites the path; the others are not
    tried. *)
Fixpoint rewritePath (rules : list (string * string)) (url : string)
  : string :=
  match rules with
  | [] => url
  | (k, v) :: rest =>
      match apply_rule k v url with
      | Some url' => url'
      | None => rewritePath rest url
      end
  end.

(** The middleware [createProxyMiddleware] returns.  It proxies every
    request it is given, from [req.originalUrl]: the request is sent
    once and the reply relayed, status and body as received, the
    upstream's headers written over those already set on [res].  A
    connection error goes to [onError]; no timeout is configured, so a
    silent upstream leaves the request open.  [u] names the proxy
    object. *)
Definition middleware (W : world) (u : upstream) (o : options) : handler :=
  fun _ r c =>
    let k := {| call_target := target o;
                call_method := method r;
                call_url := rewritePath (pathRewrite o) (originalUrl r) |} in
    let c := send u k c in
    match W k with
    | Replied up =>
        End {| status := status up;
               res_headers := res_headers up ∪ out_headers c;
               body := body up |} c
    | ConnFailed _ e => onError o e r c
    | Silent => Open c
    end.

(** [createProxyMiddleware(options)] throws on a missing target, while
    the application is built. *)
Definition createProxyMiddleware (W : world) (u : upstream) (o : options)
  : Js.error + handler :=
  if String.eqb (target o) "" then
    inl (Js.Error "[HPM] Missing target option" "")
  else inr (middleware W u o).

End Proxy.

(** ** routes/health.js *)

Module Health.
Import Express Js.

Definition MB (bytes : Z) : json :=
  JNumber (inject_Z (Math_round (inject_Z bytes / 1024 / 1024))).

(** [router.get('/')] *)
Definition health (P : process) : handler :=
  fun _ r c =>
    match memoryUsage P with
    | inr memUsage =>
        res_json r 200 (JObject [
          ("status", JString "healthy");
          ("service", JString "api-gateway");
          ("timestamp", JString (now P));
          ("uptime", JNumber (uptime P));
          ("version", JString "1.0.0");
          ("environment", JString (or_else (NODE_ENV (env P)) "development"));
          ("memory", JObject [
             ("rss", MB (rss memUsage));
             ("heapTotal", MB (heapTotal memUsage));
             ("heapUsed", MB (heapUsed memUsage)) ])
        ]) c
    | inl error =>
        res_json r 503 (JObject [
          ("status", JString "unhealthy");
          ("service", JString "api-gateway");
          ("timestamp", JString (now P));
          ("error", JString (message error))
        ]) (log {| log_level := Err; log_text := "Health check error:";
                   log_error := Some error |} c)
    end.

(** [router.get('/ready')] *)
Definition ready (P : process) : handler :=
  fun _ r c =>
    res_json r 200 (JObject [
      ("status", JString "ready");
      ("service", JString "api-gateway");
      ("timestamp", JString (now P))
    ]) c.

(** [router.get('/live')] *)
Definition live (P : process) : handler :=
  fun _ r c =>
    res_json r 200 (JObject [
      ("status", JString "alive");
      ("service", JString "api-gateway");
      ("timestamp", JString (now P));
      ("uptime", JNumber (uptime P))
    ]) c.

(** [express.Router()] with [get] routes only: the first route whose
    path matches handles a GET or HEAD; anything else leaves the router
    through [next()]. *)
Definition Router (routes : list (string * handler)) : handler :=
  fun url r c =>
    if get_method (method r) then
      match List.find (fun rt => route_match (fst rt) url) routes with
      | Some rt => snd rt url r c
      | None => Next c
      end
    else Next c.

Definition router (P : process) : handler :=
  Router [("/", health P); ("/ready", ready P); ("/live", live P)].

End Health.

(** ** The main module *)

(** The packages mounted with options that leave their contract open:
    - [helmet()] sets security headers and always calls [next()];
    - [cors(options)] either lets the request through with its headers
      set, or answers it itself (a preflight);
    - [express.json] and [express.urlencoded] call [next()] or
      [next(err)];
    - [swagger-ui-express] answers what is mounted under [/api-docs];
    - the rate limiter's informative headers, from the limit and the
      client's count. *)
Record vendor := {
  helmet : headers;
  cors : list string -> bool -> request -> headers + response;
  json_parser : request -> option Js.error;
  urlencoded_parser : request -> option Js.error;
  swagger_ui : request -> response;
  limit_headers : nat -> nat -> headers
}.

Module Gateway.
Import Express Js.

(** [const PORT = process.env.PORT || 8080] *)
Definition port (P : process) : string :=
  or_else (PORT (env P)) "8080".

Definition allowed_origins (P : process) : list string :=
  match ALLOWED_ORIGINS (env P) with
  | Some s => split_on "," s
  | None => ["http://localhost:3000"]
  end.

Definition limiter_options : RateLimit.options :=
  {| RateLimit.windowMs := 15 * 60 * 1000;
     RateLimit.max := 300;
     RateLimit.message :=
       "Too many requests from this IP, please try again later." |}.

Definition limiter (V : vendor) : handler :=
  RateLimit.rateLimit limiter_options (limit_headers V).

Definition helmet_mw (V : vendor) : handler :=
  fun _ _ c => Next (set_headers (helmet V) c).

Definition cors_mw (V : vendor) (P : process) : handler :=
  fun _ r c =>
    match cors V (allowed_origins P) true r with
    | inl h => Next (set_headers h c)
    | inr res => End res c
    end.

Definition parser_mw (parse : request -> option error) : handler :=
  fun _ r c =>
    match parse r with
    | None => Next c
    | Some e => NextErr e c
    end.

(** Request logging middleware *)
Definition request_logger : handler :=
  fun _ r c =>
    Next (log {| log_level := Info;
                 log_text := method_name (method r) ++ " " ++ path r
                             ++ " - " ++ ip r;
                 log_error := None |} c).

Definition swagger_mw (V : vendor) : handler :=
  fun _ r c => End (swagger_ui V r) c.

(** The base URL of each upstream. *)
Definition service_url (P : process) (u : upstream) : string :=
  match u with
  | UserService =>
      or_else (USER_SERVICE_URL (env P)) "http://user-service:3001"
  | ProductService =>
      or_else (PRODUCT_SERVICE_URL (env P)) "http://product-service:3002"
  | OrderService =>
      or_else (ORDER_SERVICE_URL (env P)) "http://order-service:3003"
  end.

Definition proxy_error (label body : string)
  : error -> request -> ctx -> step :=
  fun err r c =>
    res_json r 503 (JObject [("error", JString body)])
      (log {| log_level := Err; log_text := label;
              log_error := Some err |} c).

Definition userServiceOptions (P : process) : Proxy.options :=
  {| Proxy.target := service_url P UserService;
     Proxy.changeOrigin := true;
     Proxy.pathRewrite := [("^/api/users", "/api/users");
                           ("^/api/auth", "/api/auth")];
     Proxy.onError := proxy_error "User Service Proxy Error:"
                                  "User service unavailable" |}.

Definition productServiceOptions (P : process) : Proxy.options :=
  {| Proxy.target := service_url P ProductService;
     Proxy.changeOrigin := true;
     Proxy.pathRewrite := [("^/api/products", "/api/products");
                           ("^/api/categories", "/api/categories");
                           ("^/api/inventory", "/api/inventory")];
     Proxy.onError := proxy_error "Product Service Proxy Error:"
                                  "Product service unavailable" |}.

Definition orderServiceOptions (P : process) : Proxy.options :=
  {| Proxy.target := service_url P OrderService;
     Proxy.changeOrigin := true;
     Proxy.pathRewrite := [("^/api/orders", "/api/orders");
                           ("^/api/cart", "/api/cart")];
     Proxy.onError := proxy_error "Order Service Proxy Error:"
                                  "Order service unavailable" |}.

Definition serviceOptions (P : process) (u : upstream) : Proxy.options :=
  match u with
  | UserService => userServiceOptions P
  | ProductService => productServiceOptions P
  | OrderService => orderServiceOptions P
  end.

(** Route proxying: the mount paths and the proxy each one is given. *)
Definition routes : list (string * upstream) :=
  [ ("/api/users", UserService);
    ("/api/auth", UserService);
    ("/api/products", ProductService);
    ("/api/categories", ProductService);
    ("/api/inventory", ProductService);
    ("/api/orders", OrderService);
    ("/api/cart", OrderService) ].

(** Root endpoint *)
Definition root (P : process) : handler :=
  fun _ r c =>
    res_json r 200 (JObject [
      ("service", JString "API Gateway");
      ("version", JString "1.0.0");
      ("status", JString "running");
      ("timestamp", JString (now P));
      ("endpoints", JObject [
         ("health", JString "/health");
         ("users", JString "/api/users");
         ("auth", JString "/api/auth");
         ("products", JString "/api/products");
         ("categories", JString "/api/categories");
         ("inventory", JString "/api/inventory");
         ("orders", JString "/api/orders");
         ("cart", JString "/api/cart");
         ("docs", JString "/api-docs") ]);
      ("services", JObject [
         ("user_service", JString (service_url P UserService));
         ("product_service", JString (service_url P ProductService));
         ("order_service", JString (service_url P OrderService)) ])
    ]) c.

(** 404 handler *)
Definition not_found : handler :=
  fun _ r c =>
    res_json r 404 (JObject [
      ("error", JString "Endpoint not found");
      ("path", JString (originalUrl r));
      ("method", JString (method_name (method r)))
    ]) c.

(** Error handling middleware *)
Definition error_mw (P : process) : error_handler :=
  fun err r c =>
    res_json r 500 (JObject [
      ("error", JString "Internal Server Error");
      ("message",
        JString (if decide (NODE_ENV (env P) = Some "development")
                 then message err else "Something went wrong"))
    ]) (log {| log_level := Err; log_text := "Unhandled error:";
               log_error := Some err |} c).

(** The application: every [app.use] and [app.get] of the file, in its
    order, given the three proxy middlewares: first the middleware every
    request crosses, then the endpoints. *)
Definition middlewares (V : vendor) (P : process) : list layer :=
  [ Use Everything Helmet (helmet_mw V);
    Use Everything Cors (cors_mw V P);
    Use (Mount "/api/") RateLimiter (limiter V);
    Use Everything JsonParser (parser_mw (json_parser V));
    Use Everything UrlencodedParser (parser_mw (urlencoded_parser V));
    Use Everything RequestLogger request_logger ].

Definition proxies (proxy : upstream -> handler) : list layer :=
  map (fun '(prefix, u) => Use (Mount prefix) (Proxy u) (proxy u)) routes.

Definition endpoints (V : vendor) (P : process)
                     (proxy : upstream -> handler) : list layer :=
  ([ Use (Mount "/api-docs") ApiDocs (swagger_mw V);
     Use (Mount "/health") HealthRouter (Health.router P) ]
   ++ proxies proxy
   ++ [ Use (GetRoute "/") RootEndpoint (root P);
        Use Star NotFoundHandler not_found;
        UseError ErrorHandler (error_mw P) ])%list.

Definition stack (V : vendor) (P : process) (proxy : upstream -> handler)
  : list layer :=
  (middlewares V P ++ endpoints V P proxy)%list.

(** Loading the module: it fails only where a package throws. *)
Definition app (V : vendor) (P : process) (W : world)
  : error + list layer :=
  match Proxy.createProxyMiddleware W UserService (userServiceOptions P),
        Proxy.createProxyMiddleware W ProductService (productServiceOptions P),
        Proxy.createProxyMiddleware W OrderService (orderServiceOptions P)
  with
  | inr userServiceProxy, inr productServiceProxy, inr orderServiceProxy =>
      inr (stack V P (fun u =>
             match u with
             | UserService => userServiceProxy
             | ProductService => productServiceProxy
             | OrderService => orderServiceProxy
             end))
  | inl e, _, _ | _, inl e, _ | _, _, inl e => inl e
  end.

(** Start server: the module's last statement is [app.listen(PORT)];
    nothing is checked before it. *)
Inductive server :=
| Listening (port : string) (stack : list layer)
| Crashed (e : error).

Definition start (V : vendor) (P : process) (W : world) : server :=
  match app V P W with
  | inr stack => Listening (port P) stack
  | inl e => Crashed e
  end.

Definition fresh (h : gmap string nat) : ctx :=
  {| hits := h; out_headers := ∅; logs := []; visited := []; sent := [] |}.

(** One request against a started server; [h] is the rate limiter's
    store when the request arrives. *)
Definition handle (s : server) (h : gmap string nat) (r : request)
  : option outcome :=
  match s with
  | Listening _ stack => Some (dispatch stack r None (fresh h))
  | Crashed _ => None
  end.

(** The server at work.  Handlers run to their end on the event loop's
    single thread, so the limiter counts the requests in the order of
    their arrival; the store's timer fires between two of them. *)
Inductive event :=
| Inbound (r : request)
| WindowElapsed.

Fixpoint serve (s : server) (h : gmap string nat) (evs : list event)
  : list (request * outcome) :=
  match evs with
  | [] => []
  | WindowElapsed :: evs' => serve s (RateLimit.resetAll h) evs'
  | Inbound r :: evs' =>
      match handle s h r with
      | Some o => (r, o) :: serve s (hits (final o)) evs'
      | None => []
      end
  end.

End Gateway.

(** ** Vocabulary of the properties *)

#[global] Instance upstream_eq_dec : EqDecision upstream.
Proof. solve_decision. Defined.

#[global] Instance stage_eq_dec : EqDecision Express.stage.
Proof. solve_decision. Defined.

Module Props.
Import Express Js Gateway.

Definition is_some {A} (o : option A) : bool :=
  match o with Some _ => true | None => false end.

(** Two prefixes are related when one starts with the other, up to
    case. *)
Definition related (p q : string) : bool :=
  is_some (ci_strip p q) || is_some (ci_strip q p).

(** The request is under the mount path. *)
Definition under (mount : string) (r : request) : bool :=
  is_some (use_match mount (path r)).

(** The hits the store holds for the request's client. *)
Definition count (h : gmap string nat) (r : request) : nat :=
  default 0%nat (h !! ip r).

Definition cors_passes (V : vendor) (P : process) (r : request) : bool :=
  match cors V (allowed_origins P) true r with
  | inl _ => true
  | inr _ => false
  end.

Definition cors_headers (V : vendor) (P : process) (r : request) : headers :=
  match cors V (allowed_origins P) true r with
  | inl h => h
  | inr _ => ∅
  end.

Definition parsers_pass (V : vendor) (r : request) : bool :=
  negb (is_some (json_parser V r)) && negb (is_some (urlencoded_parser V r)).

(** The request reaches the endpoints: CORS lets it through, the rate
    limiter (where mounted) admits it, and its body parses. *)
Definition passes (V : vendor) (P : process) (h : gmap string nat)
                  (r : request) : bool :=
  cors_passes V P r
  && (negb (under "/api/" r) || (count h r <? 300)%nat)
  && parsers_pass V r.

(** The context in which such a request enters the endpoints. *)
Definition entered (V : vendor) (P : process) (h : gmap string nat)
                   (r : request) : ctx :=
  {| hits := if under "/api/" r then <[ip r := S (count h r)]> h else h;
     out_headers :=
       (let set := cors_headers V P r ∪ (helmet V ∪ ∅) in
        if under "/api/" r
        then limit_headers V 300 (S (count h r)) ∪ set else set);
     logs := [ {| log_level := Info;
                  log_text := method_name (method r) ++ " " ++ path r
                              ++ " - " ++ ip r;
                  log_error := None |} ];
     visited := ([Helmet; Cors]
                 ++ (if under "/api/" r then [RateLimiter] else [])
                 ++ [JsonParser; UrlencodedParser; RequestLogger])%list;
     sent := [] |}.

(** The error a body parser raises for the request, if any, and the
    context in which the error leaves the parsers. *)
Definition parse_error (V : vendor) (r : request) : option error :=
  match json_parser V r with
  | Some e => Some e
  | None => urlencoded_parser V r
  end.

Definition refused (V : vendor) (P : process) (h : gmap string nat)
                   (r : request) : ctx :=
  {| hits := hits (entered V P h r);
     out_headers := out_headers (entered V P h r);
     logs := [];
     visited := ([Helmet; Cors]
                 ++ (if under "/api/" r then [RateLimiter] else [])
                 ++ JsonParser
                    :: (if is_some (json_parser V r) then []
                        else [UrlencodedParser]))%list;
     sent := [] |}.

(** What the error middleware answers. *)
Definition error_reply (P : process) (r : request) (e : error) (c : ctx)
  : outcome :=
  {| reply := Some {|
       status := 500;
       res_headers := out_headers c;
       body := written r (PJson (JObject [
         ("error", JString "Internal Server Error");
         ("message",
           JString (if decide (NODE_ENV (env P) = Some "development")
                    then message e else "Something went wrong")) ])) |};
     final := log {| log_level := Err; log_text := "Unhandled error:";
                     log_error := Some e |} (visit ErrorHandler c) |}.

(** The three proxy middlewares of a started gateway. *)
Definition proxy_of (P : process) (W : world) : upstream -> handler :=
  fun u =>
    match u with
    | UserService =>
        Proxy.middleware W UserService (userServiceOptions P)
    | ProductService =>
        Proxy.middleware W ProductService (productServiceOptions P)
    | OrderService =>
        Proxy.middleware W OrderService (orderServiceOptions P)
    end.

(** What a proxy logs and answers when the connection fails. *)
Definition error_label (u : upstream) : string :=
  match u with
  | UserService => "User Service Proxy Error:"
  | ProductService => "Product Service Proxy Error:"
  | OrderService => "Order Service Proxy Error:"
  end.

Definition unavailable (u : upstream) : string :=
  match u with
  | UserService => "User service unavailable"
  | ProductService => "Product service unavailable"
  | OrderService => "Order service unavailable"
  end.

(** The gateway's own endpoints. *)
Definition docs_endpoint (r : request) : bool := under "/api-docs" r.

Definition health_endpoint (r : request) : bool :=
  match use_match "/health" (path r) with
  | Some url =>
      get_method (method r)
      && existsb (fun route => route_match route url) ["/"; "/ready"; "/live"]
  | None => false
  end.

Definition root_endpoint (r : request) : bool :=
  get_method (method r) && route_match "/" (path r).

(** What the 404 handler answers. *)
Definition not_found_reply (r : request) (c : ctx) : response :=
  {| status := 404;
     res_headers := out_headers c;
     body := written r (PJson (JObject [
       ("error", JString "Endpoint not found");
       ("path", JString (originalUrl r));
       ("method", JString (method_name (method r))) ])) |}.

(** The stages that answer for the gateway itself: its endpoints and,
    for a path the star layer cannot decode, the error middleware. *)
Definition own_stage (s : stage) : bool :=
  match s with
  | ApiDocs | HealthRouter | RootEndpoint | NotFoundHandler
  | ErrorHandler => true
  | _ => false
  end.

(** No route prefix of [routes] matches. *)
Definition unrouted (r : request) : bool :=
  forallb (fun '(prefix, _) => negb (under prefix r)) routes.

(** The call a proxy makes for a request. *)
Definition call_for (P : process) (u : upstream) (r : request)
  : upstream_call :=
  {| call_target := service_url P u;
     call_method := method r;
     call_url := originalUrl r |}.

(** The end of a request that entered the proxy of [u] in context [c]. *)
Definition proxied (P : process) (W : world) (u : upstream) (r : request)
                   (c : ctx) : outcome :=
  let c' := send u (call_for P u r) (visit (Proxy u) c) in
  match W (call_for P u r) with
  | Replied up =>
      {| reply := Some {| status := status up;
                          res_headers := res_headers up ∪ out_headers c;
                          body := body up |};
         final := c' |}
  | ConnFailed _ e =>
      {| reply := Some {| status := 503;
                          res_headers := out_headers c;
                          body := written r (PJson (JObject
                                    [("error", JString (unavailable u))])) |};
         final := log {| log_level := Err; log_text := error_label u;
                         log_error := Some e |} c' |}
  | Silent => {| reply := None; final := c' |}
  end.

(** The stage [s] was entered and left through [next()]: a later stage
    was entered after it. *)
Fixpoint went_past (s : stage) (l : list stage) : bool :=
  match l with
  | [] => false
  | x :: l' =>
      if decide (x = s) then is_some (head l') else went_past s l'
  end.

(** The requests of client [k] that the rate limiter let through. *)
Definition admitted (k : string) (served : list (request * outcome)) : nat :=
  length (List.filter (fun ro => String.eqb (ip (fst ro)) k
                            && went_past RateLimiter (visited (final (snd ro))))
                 served).






(** The five ways a request ends: answered by CORS, rejected by the
    rate limiter, refused by a body parser, proxied, or answered by one
    of the gateway's own endpoints. *)
Inductive served (V : vendor) (P : process) (W : world)
                 (h : gmap string nat) (r : request) (o : outcome) : Prop :=
| by_cors :
    cors_passes V P r = false ->
    hits (final o) = h -> visited (final o) = [Helmet; Cors] ->
    sent (final o) = [] -> is_some (reply o) = true ->
    served V P W h r o
| by_limiter :
    cors_passes V P r = true -> under "/api/" r = true ->
    (300 <= count h r)%nat ->
    status <$> reply o = Some 429%Z ->
    body <$> reply o
    = Some (written r (PText (RateLimit.message limiter_options))) ->
    hits (final o) = <[ip r := S (count h r)]> h ->
    visited (final o) = [Helmet; Cors; RateLimiter] ->
    sent (final o) = [] ->
    served V P W h r o
| by_error_handler (e : error) :
    cors_passes V P r = true ->
    negb (under "/api/" r) || (count h r <? 300)%nat = true ->
    parse_error V r = Some e ->
    o = error_reply P r e (refused V P h r) ->
    served V P W h r o
| by_proxy (p : string) (u : upstream) :
    passes V P h r = true -> In (p, u) routes -> under p r = true ->
    o = proxied P W u r (entered V P h r) ->
    served V P W h r o
| by_own_endpoint (l : list stage) :
    passes V P h r = true -> unrouted r = true ->
    hits (final o) = hits (entered V P h r) ->
    sent (final o) = [] -> is_some (reply o) = true ->
    visited (final o) = (visited (entered V P h r) ++ l)%list ->
    forallb own_stage l = true ->
    served V P W h r o.

End Props.

(** ** A deployment to run the gateway on *)

Module Sample.
Import Express Js Gateway Props.

(** The packages as they behave out of the box: [cors] answers a
    preflight itself, the JSON parser refuses a truncated body. *)
Definition vendor0 : vendor :=
  {| helmet := {[ "x-content-type-options" := "nosniff" ]};
     cors := fun _ _ r =>
       match method r with
       | OPTIONS => inr {| status := 204; res_headers := ∅; body := PEmpty |}
       | _ => inl ∅
       end;
     json_parser := fun r =>
       if String.eqb (req_body r) "{"
       then Some (Error "Unexpected end of JSON input"
                        "SyntaxError: Unexpected end of JSON input")
       else None;
     urlencoded_parser := fun _ => None;
     swagger_ui := fun _ =>
       {| status := 200; res_headers := ∅; body := PText "<!DOCTYPE html>" |};
     limit_headers := fun _ _ => {[ "x-ratelimit-limit" := "300" ]} |}.

Definition env0 : environment :=
  {| PORT := None; NODE_ENV := None; ALLOWED_ORIGINS := None;
     USER_SERVICE_URL := None; PRODUCT_SERVICE_URL := None;
     ORDER_SERVICE_URL := None |}.

Definition env_development : environment :=
  {| PORT := None; NODE_ENV := Some "development"; ALLOWED_ORIGINS := None;
     USER_SERVICE_URL := None; PRODUCT_SERVICE_URL := None;
     ORDER_SERVICE_URL := None |}.

Definition env_unresolvable : environment :=
  {| PORT := None; NODE_ENV := Some "production"; ALLOWED_ORIGINS := None;
     USER_SERVICE_URL := Some "http://no-such-host.invalid:3001";
     PRODUCT_SERVICE_URL := None; ORDER_SERVICE_URL := None |}.

Definition process_of (e : environment) : process :=
  {| env := e;
     now := "2024-05-01T12:00:00.000Z";
     uptime := 5 # 2;
     memoryUsage := inr {| rss := 52428800; heapTotal := 1572864;
                           heapUsed := 1572863 |} |}.

Definition P0 : process := process_of env0.

(** Upstreams that answer: the product service knows no product 7. *)
Definition W_up : world :=
  fun k =>
    if String.eqb (call_url k) "/api/products/7" then
      Replied {| status := 404;
                 res_headers := {[ "content-type" := "application/json" ]};
                 body := PText "{ error: Product not found }" |}
    else
      Replied {| status := 200;
                 res_headers := {[ "content-type" := "application/json" ]};
                 body := PText "[]" |}.

(** The product service is stopped. *)
Definition W_product_down : world :=
  fun k =>
    if String.eqb (call_target k) "http://product-service:3002" then
      ConnFailed Refused
        (Error "connect ECONNREFUSED 172.18.0.4:3002"
               "Error: connect ECONNREFUSED 172.18.0.4:3002")
    else W_up k.

(** The name of the user service does not resolve. *)
Definition W_unresolvable : world :=
  fun k =>
    if String.eqb (call_target k) "http://no-such-host.invalid:3001" then
      ConnFailed DnsFailure
        (Error "getaddrinfo ENOTFOUND no-such-host.invalid"
               "Error: getaddrinfo ENOTFOUND no-such-host.invalid")
    else W_up k.

Definition client : string := "203.0.113.9".

Definition req (m : http_method) (p body : string) : request :=
  {| method := m; path := p; search := ""; ip := client;
     req_headers := ∅; req_body := body |}.

(** The store once [client] has made 300 requests in the window. *)
Definition spent : gmap string nat := {[ client := 300%nat ]}.

End Sample.

(** ** The user service: config/database.js and routes/health.js *)

Module UserService.
Import Express Js.

(** [mysql2/promise] as the code uses it: whether [createPool] throws, and
    whether taking a connection from the pool and pinging it does. *)
Record mysql := {
  createPool : Js.error + unit;
  ping : Js.error + unit
}.

Definition info (text : string) : log_entry :=
  {| log_level := Info; log_text := text; log_error := None |}.

Definition failed (text : string) (e : error) : log_entry :=
  {| log_level := Err; log_text := text; log_error := Some e |}.

(** The [Database] object: [pool] tells whether [this.pool] is set.  Each
    method returns its result (or the error it throws), the pool
    afterwards and the lines it logs. *)
Definition db_result : Type := (error + unit) * bool * list log_entry.

(** [connect()] *)
Definition connect (M : mysql) (pool : bool) : db_result :=
  match createPool M with
  | inr _ => (inr tt, true, [info "Database pool created successfully"])
  | inl e => (inl e, pool, [failed "Failed to create database pool:" e])
  end.

(** [testConnection()] *)
Definition testConnection (M : mysql) (pool : bool) : db_result :=
  let '(connected, pool', lines) :=
    if pool then (inr tt, pool, []) else connect M pool in
  match connected with
  | inl e =>
      (inl e, pool',
       (lines ++ [failed "Database connection test failed:" e])%list)
  | inr _ =>
      match ping M with
      | inr _ =>
          (inr tt, pool',
           (lines ++ [info "Database connection test successful"])%list)
      | inl e =>
          (inl e, pool',
           (lines ++ [failed "Database connection test failed:" e])%list)
      end
  end.

(** What a health route leaves: the response and its status, the lines
    logged, the pool afterwards. *)
Record answer := {
  code : Z;
  json_body : json;
  lines : list log_entry;
  pool_after : bool
}.

(** [router.get('/')] *)
Definition health (P : process) (M : mysql) (pool : bool) : answer :=
  let '(tested, pool', logged) := testConnection M pool in
  let connected := match tested with inr _ => true | inl _ => false end in
  let logged :=
    match tested with
    | inr _ => logged
    | inl e => (logged ++ [failed "Database health check failed:" e])%list
    end in
  match memoryUsage P with
  | inr memUsage =>
      {| code := if connected then 200 else 503;
         json_body := JObject [
           ("status", JString (if connected then "healthy" else "unhealthy"));
           ("service", JString "user-service");
           ("timestamp", JString (now P));
           ("uptime", JNumber (uptime P));
           ("version", JString "1.0.0");
           ("environment", JString (or_else (NODE_ENV (env P)) "development"));
           ("database",
            JString (if connected then "connected" else "disconnected"));
           ("memory", JObject [
              ("rss", Health.MB (rss memUsage));
              ("heapTotal", Health.MB (heapTotal memUsage));
              ("heapUsed", Health.MB (heapUsed memUsage)) ]) ];
         lines := logged;
         pool_after := pool' |}
  | inl error =>
      {| code := 503;
         json_body := JObject [
           ("status", JString "unhealthy");
           ("service", JString "user-service");
           ("timestamp", JString (now P));
           ("error", JString (message error)) ];
         lines := (logged ++ [failed "Health check error:" error])%list;
         pool_after := pool' |}
  end.

(** [router.get('/ready')] *)
Definition ready (P : process) (M : mysql) (pool : bool) : answer :=
  let '(tested, pool', logged) := testConnection M pool in
  match tested with
  | inr _ =>
      {| code := 200;
         json_body := JObject [
           ("status", JString "ready");
           ("service", JString "user-service");
           ("timestamp", JString (now P)) ];
         lines := logged;
         pool_after := pool' |}
  | inl error =>
      {| code := 503;
         json_body := JObject [
           ("status", JString "not ready");
           ("service", JString "user-service");
           ("timestamp", JString (now P));
           ("error", JString "Database connection failed") ];
         lines := (logged ++ [failed "Readiness check failed:" error])%list;
         pool_after := pool' |}
  end.

End UserService.

(** ** Vocabulary of the further properties *)

Module More.
Import Express Js Gateway Props.

(** The line the request logging middleware writes. *)
Definition info_line (r : request) : log_entry :=
  {| log_level := Info;
     log_text := method_name (method r) ++ " " ++ path r ++ " - " ++ ip r;
     log_error := None |}.

(** The requests of client [k] that reach the rate limiter. *)
Definition reaching (V : vendor) (P : process) (k : string)
                    (rs : list request) : nat :=
  length (List.filter (fun r => String.eqb (ip r) k
                                && (cors_passes V P r && under "/api/" r)) rs).

(** A path with its letters in lower case. *)
Fixpoint lower_string (s : string) : string :=
  match s with
  | EmptyString => EmptyString
  | String c s' => String (lower c) (lower_string s')
  end.

(** The paths a JSON object of strings lists. *)
Fixpoint listed (fields : list (string * json)) : list string :=
  match fields with
  | [] => []
  | (_, JString p) :: rest => p :: listed rest
  | _ :: rest => listed rest
  end.

(** The paths the root endpoint advertises under [endpoints]. *)
Definition advertised (P : process) (r : request) (c : ctx) : list string :=
  match root P (path r) r c with
  | End res _ =>
      match body res with
      | PJson j =>
          match field "endpoints" j with
          | Some (JObject fields) => listed fields
          | _ => []
          end
      | _ => []
      end
  | _ => []
  end.

(** The character is a slash. *)
Definition is_slash (c : ascii) : bool := Ascii.eqb c "/".

(** The character [c] occurs in [s]. *)
Fixpoint occurs (c : ascii) (s : string) : bool :=
  match s with
  | EmptyString => false
  | String d s' => Ascii.eqb d c || occurs c s'
  end.

End More.

(** * Properties *)

Import Express Js Gateway Props.

(** ** Paths and mount prefixes *)

Section Prefixes.

Lemma ci_strip_cons (c d : ascii) (p s : string) :
  ci_strip (String c p) (String d s)
  = if Ascii.eqb (lower c) (lower d) then ci_strip p s else None.
Proof. reflexivity. Qed.

Lemma lower_slash (d : ascii) : lower "/" = lower d -> d = "/"%char.
Proof.
  destruct d as [[] [] [] [] [] [] [] []]; vm_compute; congruence.
Qed.

Lemma ci_strip_related (p q s r r' : string) :
  ci_strip p s = Some r -> ci_strip q s = Some r' -> related p q = true.
Proof.
  revert q s r r'.
  induction p as [|a p IH]; intros [|b q] [|d s] r r' Hp Hq;
    try reflexivity; try discriminate.
  simpl in Hp, Hq.
  destruct (Ascii.eqb_spec (lower a) (lower d)) as [Ea|]; [|discriminate].
  destruct (Ascii.eqb_spec (lower b) (lower d)) as [Eb|]; [|discriminate].
  specialize (IH q s r r' Hp Hq).
  unfold related in *. simpl.
  rewrite Ea, Eb, Ascii.eqb_refl. exact IH.
Qed.

(** A path under one mount path is under no unrelated one. *)
Lemma use_match_disjoint (m1 m2 s : string) :
  related (chop_slash m1) (chop_slash m2) = false ->
  is_some (use_match m1 s) = true -> use_match m2 s = None.
Proof.
  intros Hrel H1. unfold use_match in *.
  destruct (ci_strip (chop_slash m1) s) as [r1|] eqn:E1; [|discriminate].
  destruct (ci_strip (chop_slash m2) s) as [r2|] eqn:E2; [|reflexivity].
  rewrite (ci_strip_related _ _ _ _ _ E1 E2) in Hrel. discriminate.
Qed.

(** When [p] followed by a slash starts [q], what is under [q] is under
    [p]. *)
Lemma ci_strip_slash (p q t s r : string) :
  ci_strip p q = Some (String "/" t) -> ci_strip q s = Some r ->
  exists t', ci_strip p s = Some (String "/" t').
Proof.
  revert q s.
  induction p as [|a p IH]; intros q s Hp Hq.
  - simpl in Hp. simplify_eq.
    destruct s as [|d s]; [discriminate|].
    rewrite ci_strip_cons in Hq.
    destruct (Ascii.eqb_spec (lower "/") (lower d)) as [E|]; [|discriminate].
    apply lower_slash in E. subst d. simpl. eauto.
  - destruct q as [|b q]; [discriminate|].
    destruct s as [|d s]; [discriminate|].
    rewrite ci_strip_cons in *.
    destruct (Ascii.eqb_spec (lower a) (lower b)) as [Ea|]; [|discriminate].
    destruct (Ascii.eqb_spec (lower b) (lower d)) as [Eb|]; [|discriminate].
    rewrite Ea, Eb, Ascii.eqb_refl. eauto.
Qed.

Lemma use_match_under (m1 m2 t s : string) :
  ci_strip (chop_slash m1) (chop_slash m2) = Some (String "/" t) ->
  is_some (use_match m2 s) = true -> is_some (use_match m1 s) = true.
Proof.
  intros Hp H2. unfold use_match in *.
  destruct (ci_strip (chop_slash m2) s) as [r2|] eqn:E2; [|discriminate].
  destruct (ci_strip_slash _ _ _ _ _ Hp E2) as [t' ->].
  destruct t' as [|c t']; [reflexivity|].
  destruct (Ascii.eqb_spec c "/") as [->|Hc]; [reflexivity|].
  destruct c as [[] [] [] [] [] [] [] []]; try reflexivity.
Qed.

End Prefixes.

(** ** Walking the stack *)

#[local] Arguments use_match : simpl never.
#[local] Arguments route_match : simpl never.
#[local] Arguments Nat.ltb : simpl never.

Section Walk.
Context (V : vendor) (P : process) (W : world).

Lemma or_else_filled (a : option string) (d : string) :
  d <> "" -> String.eqb (or_else a d) "" = false.
Proof.
  intros Hd. unfold or_else. destruct a as [s|].
  - destruct (String.eqb_spec s "") as [->|Hs].
    + now apply String.eqb_neq.
    + now apply String.eqb_neq.
  - now apply String.eqb_neq.
Qed.

Lemma service_url_filled (u : upstream) :
  String.eqb (service_url P u) "" = false.
Proof. destruct u; apply or_else_filled; discriminate. Qed.

(** Loading the module never throws: each target has a default. *)
Lemma app_built : app V P W = inr (stack V P (proxy_of P W)).
Proof.
  unfold app, Proxy.createProxyMiddleware.
  change (Proxy.target (userServiceOptions P))
    with (service_url P UserService).
  change (Proxy.target (productServiceOptions P))
    with (service_url P ProductService).
  change (Proxy.target (orderServiceOptions P))
    with (service_url P OrderService).
  rewrite !service_url_filled. reflexivity.
Qed.

Lemma start_listening :
  start V P W = Listening (port P) (stack V P (proxy_of P W)).
Proof. unfold start. now rewrite app_built. Qed.

Lemma handle_start (h : gmap string nat) (r : request) :
  handle (start V P W) h r
  = Some (dispatch (stack V P (proxy_of P W)) r None (fresh h)).
Proof. now rewrite start_listening. Qed.

End Walk.

Section Steps.

Lemma dispatch_use m s hd rest r c url :
  match_error m r = None -> matches m r = Some url ->
  dispatch (Use m s hd :: rest) r None c
  = finish (hd url r (visit s c)) (dispatch rest r).
Proof. intros He H. cbn [dispatch]. now rewrite He, H. Qed.

Lemma dispatch_skip m s hd rest r c :
  match_error m r = None -> matches m r = None ->
  dispatch (Use m s hd :: rest) r None c = dispatch rest r None c.
Proof. intros He H. cbn [dispatch]. now rewrite He, H. Qed.

(** The star layer: entered when the path decodes, else the decoding
    error is raised. *)
Lemma dispatch_star s hd rest r c :
  dispatch (Use Star s hd :: rest) r None c
  = if decodable (path r)
    then finish (hd (path r) r (visit s c)) (dispatch rest r)
    else dispatch rest r (Some (decode_error (path r))) c.
Proof. cbn [dispatch match_error matches]. now destruct (decodable (path r)). Qed.

Lemma dispatch_pending m s hd rest r e c :
  dispatch (Use m s hd :: rest) r (Some e) c = dispatch rest r (Some e) c.
Proof. reflexivity. Qed.

Lemma dispatch_error s hd rest r e c :
  dispatch (UseError s hd :: rest) r (Some e) c
  = finish (hd e r (visit s c)) (dispatch rest r).
Proof. reflexivity. Qed.

End Steps.

#[local] Arguments dispatch : simpl never.

(** Enter the layer on top of the stack, or pass it by. *)
Ltac enter :=
  erewrite dispatch_use by (reflexivity || eassumption); cbv beta.
Ltac skip :=
  rewrite dispatch_skip by (reflexivity || eassumption).

Section Middlewares.
Context (V : vendor) (P : process) (px : upstream -> handler).
Context (h : gmap string nat) (r : request).

(** A request that passes enters the endpoints. *)
Lemma dispatch_passes :
  passes V P h r = true ->
  dispatch (stack V P px) r None (fresh h)
  = dispatch (endpoints V P px) r None (entered V P h r).
Proof.
  unfold passes, cors_passes, parsers_pass, entered, cors_headers,
    under, count.
  intros H.
  apply andb_prop in H as [H H3]. apply andb_prop in H as [H1 H2].
  apply andb_prop in H3 as [H3 H4].
  unfold stack, middlewares. cbn [Datatypes.app].
  enter. unfold helmet_mw at 1. cbn [finish].
  enter. unfold cors_mw at 1.
  destruct (cors V (allowed_origins P) true r) as [hd|]; [|discriminate].
  cbn [finish].
  destruct (json_parser V r) eqn:Ej; [discriminate|].
  destruct (urlencoded_parser V r) eqn:Eu; [discriminate|].
  destruct (use_match "/api/" (path r)) as [url|] eqn:E;
    cbn [is_some negb orb] in H2 |- *.
  - enter. unfold limiter, RateLimit.rateLimit.
    cbn [RateLimit.max limiter_options hits visit set_headers set_hits fresh].
    apply Nat.ltb_lt in H2.
    destruct (Nat.ltb_spec 300 (S (default 0%nat (h !! ip r))))
      as [?|_]; [lia|].
    cbn [finish].
    enter. unfold parser_mw at 1. rewrite Ej. cbn [finish].
    enter. unfold parser_mw at 1. rewrite Eu. cbn [finish].
    enter. unfold request_logger at 1. cbn [finish].
    reflexivity.
  - skip.
    enter. unfold parser_mw at 1. rewrite Ej. cbn [finish].
    enter. unfold parser_mw at 1. rewrite Eu. cbn [finish].
    enter. unfold request_logger at 1. cbn [finish].
    reflexivity.
Qed.

(** A request that CORS answers goes no further. *)
Lemma dispatch_cors_answers (res : response) :
  cors V (allowed_origins P) true r = inr res ->
  dispatch (stack V P px) r None (fresh h)
  = {| reply := Some res;
       final := visit Cors (set_headers (helmet V) (visit Helmet (fresh h))) |}.
Proof.
  intros H. unfold stack, middlewares. cbn [Datatypes.app].
  enter. unfold helmet_mw at 1. cbn [finish].
  enter. unfold cors_mw at 1. rewrite H. reflexivity.
Qed.

(** A request over the limit is answered by the limiter. *)
Lemma dispatch_limited (hd : headers) :
  cors V (allowed_origins P) true r = inl hd ->
  under "/api/" r = true ->
  (300 <= count h r)%nat ->
  dispatch (stack V P px) r None (fresh h)
  = {| reply := Some {| status := 429;
                        res_headers :=
                          limit_headers V 300 (S (count h r))
                          ∪ (hd ∪ (helmet V ∪ ∅));
                        body := written r (PText
                          "Too many requests from this IP, please try again later.") |};
       final := {| hits := <[ip r := S (count h r)]> h;
                   out_headers := limit_headers V 300 (S (count h r))
                                  ∪ (hd ∪ (helmet V ∪ ∅));
                   logs := [];
                   visited := [Helmet; Cors; RateLimiter];
                   sent := [] |} |}.
Proof.
  unfold under, count. intros Hc Hu Hn.
  destruct (use_match "/api/" (path r)) as [url|] eqn:E; [|discriminate].
  unfold stack, middlewares. cbn [Datatypes.app].
  enter. unfold helmet_mw at 1. cbn [finish].
  enter. unfold cors_mw at 1. rewrite Hc. cbn [finish].
  enter. unfold limiter, RateLimit.rateLimit.
  cbn [RateLimit.max limiter_options hits visit set_headers set_hits fresh].
  destruct (Nat.ltb_spec 300 (S (default 0%nat (h !! ip r))))
    as [_|?]; [|lia].
  reflexivity.
Qed.

End Middlewares.

Section Failures.
Context (V : vendor) (P : process) (px : upstream -> handler).

(** Once an error is pending only the error middleware is entered. *)
Lemma endpoints_error (r : request) (e : error) (c : ctx) :
  dispatch (endpoints V P px) r (Some e) c = error_reply P r e c.
Proof.
  unfold endpoints, proxies, routes. cbn [Datatypes.app map].
  rewrite !dispatch_pending, dispatch_error. reflexivity.
Qed.

(** A body the parsers refuse goes to the error middleware. *)
Lemma dispatch_parse_error (h : gmap string nat) (r : request) (e : error) :
  cors_passes V P r = true ->
  negb (under "/api/" r) || (count h r <? 300)%nat = true ->
  parse_error V r = Some e ->
  dispatch (stack V P px) r None (fresh h)
  = error_reply P r e (refused V P h r).
Proof.
  unfold cors_passes, parse_error, refused, entered, cors_headers,
    under, count.
  intros H1 H2 He. rewrite <- (endpoints_error r e).
  unfold stack, middlewares. cbn [Datatypes.app].
  enter. unfold helmet_mw at 1. cbn [finish].
  enter. unfold cors_mw at 1.
  destruct (cors V (allowed_origins P) true r) as [hd|]; [|discriminate].
  cbn [finish].
  assert (Hrest : forall c,
    dispatch
      (Use Everything JsonParser (parser_mw (json_parser V))
       :: Use Everything UrlencodedParser (parser_mw (urlencoded_parser V))
       :: Use Everything RequestLogger request_logger
       :: endpoints V P px) r None c
    = dispatch (endpoints V P px) r (Some e)
        (if is_some (json_parser V r) then visit JsonParser c
         else visit UrlencodedParser (visit JsonParser c))).
  { intros c. enter. unfold parser_mw at 1.
    destruct (json_parser V r) as [e'|] eqn:Ej; cbn [finish is_some].
    - simplify_eq. now rewrite !dispatch_pending.
    - enter. unfold parser_mw at 1. rewrite He. cbn [finish].
      now rewrite !dispatch_pending. }
  destruct (use_match "/api/" (path r)) as [url|] eqn:E;
    cbn [is_some negb orb] in H2 |- *.
  - enter. unfold limiter, RateLimit.rateLimit.
    cbn [RateLimit.max limiter_options hits visit set_headers set_hits fresh].
    apply Nat.ltb_lt in H2.
    destruct (Nat.ltb_spec 300 (S (default 0%nat (h !! ip r))))
      as [?|_]; [lia|].
    cbn [finish]. rewrite Hrest.
    destruct (json_parser V r); reflexivity.
  - skip. rewrite Hrest.
    destruct (json_parser V r); reflexivity.
Qed.

End Failures.

(** ** Routing *)

Section Routing.
Context (V : vendor) (P : process) (W : world).

Lemma strip_prefix_app (p s rest : string) :
  Proxy.strip_prefix p s = Some rest -> s = p ++ rest.
Proof.
  revert s. induction p as [|c p IH]; intros [|d s] H;
    simpl in H; simplify_eq; try reflexivity.
  destruct (Ascii.eqb_spec c d) as [->|]; [|discriminate].
  change (String d s = String d (p ++ rest)). f_equal. now apply IH.
Qed.

(** Every [pathRewrite] entry of the gateway puts back the prefix it
    matches: the path is forwarded as it came. *)
Lemma rewritePath_same (rules : list (string * string)) (url : string) :
  Forall (fun kv => fst kv = String "^" (snd kv)) rules ->
  Proxy.rewritePath rules url = url.
Proof.
  induction 1 as [|[k v] rules Hk _ IH]; [reflexivity|].
  simpl in Hk. subst k. cbn [Proxy.rewritePath Proxy.apply_rule].
  destruct (Proxy.strip_prefix v url) as [rest|] eqn:E; cbn [fmap option_fmap option_map].
  - symmetry. now apply strip_prefix_app.
  - exact IH.
Qed.

Lemma rewrite_same (u : upstream) (url : string) :
  Proxy.rewritePath (Proxy.pathRewrite (serviceOptions P u)) url = url.
Proof.
  apply rewritePath_same. destruct u; repeat constructor.
Qed.

(** A proxy never calls [next()]: what it does ends the request. *)
Lemma proxy_outcome (u : upstream) (url : string) (r : request) (c : ctx)
                    (k : option error -> ctx -> outcome) :
  finish (proxy_of P W u url r (visit (Proxy u) c)) k = proxied P W u r c.
Proof.
  unfold proxied, call_for.
  rewrite <- (rewrite_same u (originalUrl r)).
  destruct u; unfold proxy_of, Proxy.middleware;
    cbn [serviceOptions userServiceOptions productServiceOptions
         orderServiceOptions Proxy.target Proxy.pathRewrite Proxy.onError];
    match goal with |- context [W ?k] => destruct (W k) end; reflexivity.
Qed.

End Routing.

Ltac pass_by H :=
  rewrite dispatch_skip
    by first [ reflexivity
             | cbn [matches]; eapply use_match_disjoint; [|exact H];
               reflexivity ].

Section Routes.
Context (V : vendor) (P : process) (W : world).

(** Every route prefix lies under the rate limiter's mount path. *)
Lemma under_api (r : request) (p : string) (u : upstream) :
  In (p, u) routes -> under p r = true -> under "/api/" r = true.
Proof.
  unfold under. cbn [In routes]. intros H Hp.
  repeat destruct H as [H|H]; try contradiction; simplify_eq;
    (eapply use_match_under; [|exact Hp]; reflexivity).
Qed.

(** The route prefixes do not overlap: a path is under one at most. *)
Lemma routes_disjoint (r : request) (p1 p2 : string) (u1 u2 : upstream) :
  In (p1, u1) routes -> In (p2, u2) routes -> p1 <> p2 ->
  under p1 r = true -> under p2 r = false.
Proof.
  unfold under. cbn [In routes]. intros H1 H2 Hne Hp.
  repeat destruct H1 as [H1|H1]; try contradiction; simplify_eq;
    repeat destruct H2 as [H2|H2]; try contradiction; simplify_eq;
    try congruence;
    (erewrite use_match_disjoint; [reflexivity | | exact Hp]; reflexivity).
Qed.

(** A request under a route prefix ends in the proxy mounted there,
    whatever precedes it in the stack. *)
Lemma endpoints_routed (r : request) (c : ctx) (p : string) (u : upstream) :
  In (p, u) routes -> under p r = true ->
  dispatch (endpoints V P (proxy_of P W)) r None c = proxied P W u r c.
Proof.
  unfold under. cbn [In routes]. intros H Hp.
  unfold endpoints, proxies, routes. cbn [Datatypes.app map].
  repeat destruct H as [H|H]; try contradiction; simplify_eq;
    repeat pass_by Hp;
    match type of Hp with
    | is_some (use_match ?p _) = true =>
        destruct (use_match p (path r)) as [url|] eqn:E; [|discriminate]
    end;
    enter; apply proxy_outcome.
Qed.

Lemma unrouted_spec (r : request) :
  unrouted r = true <->
  forall p u, In (p, u) routes -> use_match p (path r) = None.
Proof.
  unfold unrouted. rewrite forallb_forall. split.
  - intros H p u Hin. specialize (H _ Hin). cbn in H.
    unfold under in H. now destruct (use_match p (path r)).
  - intros H [p u] Hin. unfold under. now rewrite (H p u Hin).
Qed.

Lemma routed_spec (r : request) :
  unrouted r = false ->
  exists p u, In (p, u) routes /\ under p r = true.
Proof.
  unfold unrouted. cbn [forallb routes]. intros H.
  repeat (apply andb_false_iff in H as [H|H]); try discriminate;
    apply negb_false_iff in H;
    (do 2 eexists; split; [|exact H]; cbn [In routes]; eauto 10).
Qed.

(** A request under no route prefix passes all the proxies by. *)
Lemma proxies_skipped (px : upstream -> handler) (rest : list layer)
                      (r : request) (c : ctx) :
  unrouted r = true ->
  dispatch (proxies px ++ rest) r None c = dispatch rest r None c.
Proof.
  intros H. pose proof (proj1 (unrouted_spec r) H) as Hp.
  unfold proxies, routes. cbn [Datatypes.app map].
  repeat (rewrite dispatch_skip
            by first [ reflexivity
                     | cbn [matches]; eapply Hp; cbn [In routes]; eauto 10 ]).
  reflexivity.
Qed.

End Routes.

(** ** The gateway's own endpoints *)

Section Own.
Context (V : vendor) (P : process) (px : upstream -> handler).

Lemma endpoints_docs (r : request) (c : ctx) :
  docs_endpoint r = true ->
  dispatch (endpoints V P px) r None c
  = {| reply := Some (swagger_ui V r); final := visit ApiDocs c |}.
Proof.
  unfold docs_endpoint, under. intros H.
  destruct (use_match "/api-docs" (path r)) as [url|] eqn:E; [|discriminate].
  unfold endpoints. cbn [Datatypes.app]. enter. reflexivity.
Qed.

(** What is under no route prefix never touches a proxy: it is answered
    by the documentation, the health router, the root endpoint or the
    404 handler. *)
Lemma endpoints_own (r : request) (c : ctx) :
  unrouted r = true ->
  let o := dispatch (endpoints V P px) r None c in
  hits (final o) = hits c /\ sent (final o) = sent c
  /\ is_some (reply o) = true
  /\ exists l, visited (final o) = (visited c ++ l)%list
               /\ forallb own_stage l = true.
Proof.
  intros Hu. unfold endpoints. cbn [Datatypes.app].
  destruct (use_match "/api-docs" (path r)) as [url|] eqn:Ed.
  { enter. cbn. repeat split; try reflexivity. now exists [ApiDocs]. }
  skip.
  assert (Hrest : forall c' l,
    hits c' = hits c -> sent c' = sent c ->
    visited c' = (visited c ++ l)%list -> forallb own_stage l = true ->
    let o := dispatch
      (proxies px ++ [Use (GetRoute "/") RootEndpoint (root P);
                      Use Star NotFoundHandler not_found;
                      UseError ErrorHandler (error_mw P)]) r None c' in
    hits (final o) = hits c /\ sent (final o) = sent c
    /\ is_some (reply o) = true
    /\ exists l, visited (final o) = (visited c ++ l)%list
                 /\ forallb own_stage l = true).
  { intros c' l Hh Hs Hv Hl. rewrite proxies_skipped by exact Hu.
    destruct (matches (GetRoute "/") r) as [url|] eqn:Er.
    - enter. cbn. rewrite Hv, <- app_assoc. repeat split; try assumption.
      eexists. split; [reflexivity|]. rewrite forallb_app, Hl. reflexivity.
    - skip. rewrite dispatch_star.
      destruct (decodable (path r)); [|rewrite dispatch_error];
        cbn; rewrite Hv, <- app_assoc; (repeat split; try assumption);
        eexists; (split; [reflexivity|]); rewrite forallb_app, Hl;
        reflexivity. }
  destruct (use_match "/health" (path r)) as [url|] eqn:Eh.
  - enter. unfold Health.router, Health.Router.
    destruct (get_method (method r)).
    + cbn [List.find fst snd].
      destruct (route_match "/" url).
      { unfold Health.health. destruct (memoryUsage P); cbn;
          (repeat split; try reflexivity); now exists [HealthRouter]. }
      destruct (route_match "/ready" url).
      { cbn. repeat split; try reflexivity. now exists [HealthRouter]. }
      destruct (route_match "/live" url).
      { cbn. repeat split; try reflexivity. now exists [HealthRouter]. }
      cbn [finish]. now apply (Hrest _ [HealthRouter]).
    + cbn [finish]. now apply (Hrest _ [HealthRouter]).
  - skip. apply (Hrest c []); try reflexivity. now rewrite app_nil_r.
Qed.

End Own.

Section OwnReplies.
Context (V : vendor) (P : process) (px : upstream -> handler).

Lemma route_match_root (s : string) :
  route_match "/" s = true -> s = "" \/ s = "/".
Proof.
  unfold route_match. cbn [chop_slash Ascii.eqb Bool.eqb ci_strip].
  destruct s as [|c [|d s]]; auto; try discriminate.
  all: destruct c as [[] [] [] [] [] [] [] []]; try discriminate; auto.
Qed.


(** What no endpoint answers is left to the 404 handler. *)
Lemma endpoints_not_found (r : request) (c : ctx) :
  unrouted r = true -> docs_endpoint r = false ->
  health_endpoint r = false -> root_endpoint r = false ->
  decodable (path r) = true ->
  let o := dispatch (endpoints V P px) r None c in
  reply o = Some (not_found_reply r c) /\ logs (final o) = logs c.
Proof.
  unfold docs_endpoint, health_endpoint, root_endpoint, under.
  intros Hu Hd Hh Hr Hdec.
  assert (Hroot : matches (GetRoute "/") r = None).
  { cbn [matches]. now rewrite Hr. }
  unfold endpoints. cbn [Datatypes.app].
  destruct (use_match "/api-docs" (path r)) as [?|] eqn:Ed; [discriminate|].
  skip.
  destruct (use_match "/health" (path r)) as [url|] eqn:Eh.
  - enter. unfold Health.router, Health.Router.
    destruct (get_method (method r)).
    + cbn [andb existsb orb] in Hh.
      apply orb_false_elim in Hh as [H1 Hh].
      apply orb_false_elim in Hh as [H2 Hh].
      apply orb_false_elim in Hh as [H3 _].
      cbn [List.find fst snd]. rewrite H1, H2, H3. cbn [finish].
      rewrite proxies_skipped by exact Hu. skip.
      rewrite dispatch_star, Hdec. now cbn.
    + cbn [finish]. rewrite proxies_skipped by exact Hu. skip.
      rewrite dispatch_star, Hdec. now cbn.
  - skip. rewrite proxies_skipped by exact Hu. skip.
      rewrite dispatch_star, Hdec. now cbn.
Qed.

(** What no endpoint answers and cannot be decoded goes from the
    catch-all layer to the error middleware. *)
Lemma endpoints_undecodable (r : request) (c : ctx) :
  unrouted r = true -> docs_endpoint r = false ->
  health_endpoint r = false -> root_endpoint r = false ->
  decodable (path r) = false ->
  let o := dispatch (endpoints V P px) r None c in
  reply o = reply (error_reply P r (decode_error (path r)) c)
  /\ logs (final o)
     = (logs c ++ [{| log_level := Err; log_text := "Unhandled error:";
                      log_error := Some (decode_error (path r)) |}])%list.
Proof.
  unfold docs_endpoint, health_endpoint, root_endpoint, under.
  intros Hu Hd Hh Hr Hdec.
  assert (Hroot : matches (GetRoute "/") r = None).
  { cbn [matches]. now rewrite Hr. }
  unfold endpoints. cbn [Datatypes.app].
  destruct (use_match "/api-docs" (path r)) as [?|] eqn:Ed; [discriminate|].
  skip.
  destruct (use_match "/health" (path r)) as [url|] eqn:Eh.
  - enter. unfold Health.router, Health.Router.
    destruct (get_method (method r)).
    + cbn [andb existsb orb] in Hh.
      apply orb_false_elim in Hh as [H1 Hh].
      apply orb_false_elim in Hh as [H2 Hh].
      apply orb_false_elim in Hh as [H3 _].
      cbn [List.find fst snd]. rewrite H1, H2, H3. cbn [finish].
      rewrite proxies_skipped by exact Hu. skip.
      rewrite dispatch_star, Hdec, dispatch_error. now cbn.
    + cbn [finish]. rewrite proxies_skipped by exact Hu. skip.
      rewrite dispatch_star, Hdec, dispatch_error. now cbn.
  - skip. rewrite proxies_skipped by exact Hu. skip.
    rewrite dispatch_star, Hdec, dispatch_error. now cbn.
Qed.

(** The health route of the health router. *)
Lemma endpoints_health (r : request) (c : ctx) (url : string) :
  use_match "/health" (path r) = Some url ->
  get_method (method r) = true -> route_match "/" url = true ->
  dispatch (endpoints V P px) r None c
  = finish (Health.health P url r (visit HealthRouter c))
           (fun _ c' => {| reply := None; final := c' |}).
Proof.
  intros Hh Hm Hr.
  assert (Hs : is_some (use_match "/health" (path r)) = true)
    by now rewrite Hh.
  unfold endpoints. cbn [Datatypes.app].
  pass_by Hs. enter. unfold Health.router, Health.Router.
  rewrite Hm. cbn [List.find fst snd]. rewrite Hr. cbn [snd].
  unfold Health.health. now destruct (memoryUsage P).
Qed.

End OwnReplies.

(** ** Every request, case by case *)

Section Cases.
Context (V : vendor) (P : process) (W : world).
Context (h : gmap string nat) (r : request).

Lemma serve_cases :
  served V P W h r (dispatch (stack V P (proxy_of P W)) r None (fresh h)).
Proof.
  destruct (cors V (allowed_origins P) true r) as [hd|res] eqn:Ec.
  2:{ rewrite (dispatch_cors_answers _ _ _ _ _ _ Ec).
      apply by_cors; try reflexivity. unfold cors_passes. now rewrite Ec. }
  assert (Hc : cors_passes V P r = true)
    by (unfold cors_passes; now rewrite Ec).
  destruct (under "/api/" r && negb (count h r <? 300)%nat) eqn:El.
  { apply andb_prop in El as [Hu Hn]. apply negb_true_iff in Hn.
    apply Nat.ltb_ge in Hn.
    rewrite (dispatch_limited _ _ _ _ _ _ Ec Hu Hn).
    now apply by_limiter. }
  assert (Hl : negb (under "/api/" r) || (count h r <? 300)%nat = true).
  { destruct (under "/api/" r), (count h r <? 300)%nat;
      try reflexivity; discriminate. }
  destruct (parse_error V r) as [e|] eqn:Ee.
  { rewrite (dispatch_parse_error _ _ _ _ _ _ Hc Hl Ee).
    now apply (by_error_handler _ _ _ _ _ _ e). }
  assert (Hp : passes V P h r = true).
  { unfold passes, parsers_pass. rewrite Hc, Hl. unfold parse_error in Ee.
    destruct (json_parser V r); [discriminate|]. now rewrite Ee. }
  rewrite (dispatch_passes _ _ _ _ _ Hp).
  destruct (unrouted r) eqn:Eu.
  - destruct (endpoints_own V P (proxy_of P W) r (entered V P h r) Eu)
      as (Hh & Hs & Hr & l & Hv & Hown).
    now apply (by_own_endpoint _ _ _ _ _ _ l).
  - destruct (routed_spec r Eu) as (p & u & Hin & Hunder).
    rewrite (endpoints_routed _ _ _ _ _ _ _ Hin Hunder).
    now apply (by_proxy _ _ _ _ _ _ p u).
Qed.

End Cases.

(** ** Facts shared by the properties *)

Section Facts.
Context (V : vendor) (P : process) (W : world).

Lemma passes_inv (h : gmap string nat) (r : request) :
  passes V P h r = true ->
  cors_passes V P r = true
  /\ negb (under "/api/" r) || (count h r <? 300)%nat = true
  /\ parse_error V r = None.
Proof.
  unfold passes, parsers_pass, parse_error. intros H.
  apply andb_prop in H as [H H3]. apply andb_prop in H as [H1 H2].
  repeat split; try assumption.
  destruct (json_parser V r); [discriminate|].
  now destruct (urlencoded_parser V r).
Qed.

Lemma proxied_sent (u : upstream) (r : request) (c : ctx) :
  sent (final (proxied P W u r c)) = (sent c ++ [(u, call_for P u r)])%list.
Proof. unfold proxied. now destruct (W (call_for P u r)). Qed.

Lemma proxied_hits (u : upstream) (r : request) (c : ctx) :
  hits (final (proxied P W u r c)) = hits c.
Proof. unfold proxied. now destruct (W (call_for P u r)). Qed.

Lemma proxied_visited (u : upstream) (r : request) (c : ctx) :
  visited (final (proxied P W u r c)) = (visited c ++ [Proxy u])%list.
Proof. unfold proxied. now destruct (W (call_for P u r)). Qed.

(** A path under a route prefix names one upstream. *)
Lemma routed_unique (r : request) (p1 p2 : string) (u1 u2 : upstream) :
  In (p1, u1) routes -> under p1 r = true ->
  In (p2, u2) routes -> under p2 r = true -> u2 = u1.
Proof.
  intros H1 Hp1 H2 Hp2.
  destruct (decide (p1 = p2)) as [->|Hne].
  - clear Hp1 Hp2. cbn [In routes] in H1, H2.
    repeat destruct H1 as [H1|H1]; try contradiction;
      repeat destruct H2 as [H2|H2]; try contradiction;
      simplify_eq; reflexivity.
  - rewrite (routes_disjoint r p1 p2 u1 u2 H1 H2 Hne Hp1) in Hp2.
    discriminate.
Qed.

Lemma routed_not_unrouted (r : request) (p : string) (u : upstream) :
  In (p, u) routes -> under p r = true -> unrouted r = false.
Proof.
  intros Hin Hp. destruct (unrouted r) eqn:E; [|reflexivity].
  unfold under in Hp.
  now rewrite (proj1 (unrouted_spec r) E p u Hin) in Hp.
Qed.

End Facts.

(** * The claims *)

Section RoutePartition.
Context (V : vendor) (P : process) (W : world).

(** C2.  The route prefixes partition the path space.  For a request
    whose path is under a configured prefix [p1], mounted on the proxy of
    upstream [u1]: the path is under no other configured prefix; whatever
    happens to the request, no call is ever made to another upstream than
    [u1]; and once the request has passed the middleware in front of the
    routes (CORS, rate limiter, body parsers) it is dispatched to [u1],
    by exactly one call to [u1]'s base URL with the original URL. *)
Theorem route_partition (h : gmap string nat) (r : request)
                        (p1 : string) (u1 : upstream) :
  In (p1, u1) routes -> under p1 r = true ->
  (forall p2 u2, In (p2, u2) routes -> p2 <> p1 -> under p2 r = false)
  /\ exists o, handle (start V P W) h r = Some o
     /\ (forall u k, In (u, k) (sent (final o)) ->
           u = u1 /\ k = call_for P u1 r)
     /\ (passes V P h r = true ->
         sent (final o) = [(u1, call_for P u1 r)]).
Proof.
  intros Hin Hp. split.
  { intros p2 u2 Hin2 Hne.
    apply (routes_disjoint r p1 p2 u1 u2); auto. }
  rewrite handle_start. eexists. split; [reflexivity|].
  destruct (serve_cases V P W h r)
    as [Hc Hh Hv Hs Hr | Hc Hu Hn Hst Hb Hh Hv Hs | e Hc Hl He Ho
        | p u Hpass Hin' Hp' Ho | l Hpass Hu Hh Hs Hr Hv Hl].
  - rewrite Hs. split; [intros ? ? []|].
    intros Hpass. apply passes_inv in Hpass as [Hc' _]. congruence.
  - rewrite Hs. split; [intros ? ? []|].
    intros Hpass. apply passes_inv in Hpass as (_ & Hl & _).
    rewrite Hu in Hl. cbn in Hl. apply Nat.ltb_lt in Hl. lia.
  - rewrite Ho. split; [intros ? ? []|].
    intros Hpass. apply passes_inv in Hpass as (_ & _ & He'). congruence.
  - rewrite Ho, proxied_sent.
    assert (u = u1) as -> by apply (routed_unique r p1 p u1 u Hin Hp Hin' Hp').
    split; [|reflexivity].
    intros u' k [Hk|[]]. now simplify_eq.
  - rewrite (routed_not_unrouted r p1 u1 Hin Hp) in Hu. discriminate.
Qed.

End RoutePartition.

(** C2 at work: a product path goes to the product service only. *)
Lemma route_partition_witness :
  In ("/api/products", ProductService) routes
  /\ under "/api/products" (Sample.req GET "/api/products/7" "") = true
  /\ ((forall p2 u2, In (p2, u2) routes -> p2 <> "/api/products" ->
         under p2 (Sample.req GET "/api/products/7" "") = false)
      /\ exists o,
           handle (start Sample.vendor0 Sample.P0 Sample.W_up) ∅
                  (Sample.req GET "/api/products/7" "") = Some o
           /\ (forall u k, In (u, k) (sent (final o)) ->
                 u = ProductService
                 /\ k = call_for Sample.P0 ProductService
                          (Sample.req GET "/api/products/7" ""))
           /\ (passes Sample.vendor0 Sample.P0 ∅
                 (Sample.req GET "/api/products/7" "") = true ->
               sent (final o)
               = [(ProductService,
                   call_for Sample.P0 ProductService
                     (Sample.req GET "/api/products/7" ""))])).
Proof.
  split; [cbn; auto 10|]. split; [reflexivity|].
  apply (route_partition Sample.vendor0 Sample.P0 Sample.W_up ∅
           (Sample.req GET "/api/products/7" "") "/api/products" ProductService).
  - cbn; auto 10.
  - reflexivity.
Defined.

Section UpstreamFailure.
Context (V : vendor) (P : process) (W : world).

(** C3.  A request routed to an upstream is sent to it exactly once (no
    retry).  When the connection fails with an error (refused, name not
    resolved, timed out by the system) the client receives 503 with the
    unavailable message of that upstream, and the failure is logged as an
    error under the upstream's name together with the error.  The proxies
    set no timeout of their own: when the upstream accepts the request and
    never answers, the client is sent nothing and the request stays
    open. *)
Theorem upstream_failure_is_503 (h : gmap string nat) (r : request)
    (p : string) (u : upstream) :
  In (p, u) routes -> under p r = true -> passes V P h r = true ->
  exists o, handle (start V P W) h r = Some o
    /\ sent (final o) = [(u, call_for P u r)]
    /\ (forall f e, W (call_for P u r) = ConnFailed f e ->
         reply o = Some {|
           status := 503;
           res_headers := out_headers (entered V P h r);
           body := written r
                     (PJson (JObject [("error", JString (unavailable u))])) |}
         /\ last (logs (final o))
            = Some {| log_level := Err; log_text := error_label u;
                      log_error := Some e |})
    /\ (W (call_for P u r) = Silent -> reply o = None).
Proof.
  intros Hin Hp Hpass.
  rewrite handle_start, (dispatch_passes _ _ _ _ _ Hpass),
    (endpoints_routed _ _ _ _ _ _ _ Hin Hp).
  eexists. split; [reflexivity|]. split; [apply proxied_sent|].
  unfold proxied. split.
  - intros f e Hw. rewrite Hw. cbn. auto.
  - intros Hw. now rewrite Hw.
Qed.

End UpstreamFailure.

(** C3 at work: the product service is stopped. *)
Lemma upstream_failure_is_503_witness :
  In ("/api/products", ProductService) routes
  /\ under "/api/products" (Sample.req GET "/api/products" "") = true
  /\ passes Sample.vendor0 Sample.P0 ∅ (Sample.req GET "/api/products" "") = true
  /\ Sample.W_product_down
       (call_for Sample.P0 ProductService (Sample.req GET "/api/products" ""))
     = ConnFailed Refused
         (Error "connect ECONNREFUSED 172.18.0.4:3002"
                "Error: connect ECONNREFUSED 172.18.0.4:3002")
  /\ exists o,
       handle (start Sample.vendor0 Sample.P0 Sample.W_product_down) ∅
              (Sample.req GET "/api/products" "") = Some o
       /\ sent (final o)
          = [(ProductService,
              call_for Sample.P0 ProductService
                (Sample.req GET "/api/products" ""))]
       /\ reply o = Some {|
            status := 503;
            res_headers := out_headers (entered Sample.vendor0 Sample.P0 ∅
                                          (Sample.req GET "/api/products" ""));
            body := PJson (JObject
                      [("error", JString "Product service unavailable")]) |}
       /\ last (logs (final o))
          = Some {| log_level := Err;
                    log_text := "Product Service Proxy Error:";
                    log_error := Some
                      (Error "connect ECONNREFUSED 172.18.0.4:3002"
                             "Error: connect ECONNREFUSED 172.18.0.4:3002") |}.
Proof.
  assert (Hin : In ("/api/products", ProductService) routes)
    by (cbn; auto 10).
  assert (Hu : under "/api/products" (Sample.req GET "/api/products" "")
               = true) by reflexivity.
  assert (Hp : passes Sample.vendor0 Sample.P0 ∅
                 (Sample.req GET "/api/products" "") = true) by reflexivity.
  split; [exact Hin|]. split; [exact Hu|]. split; [exact Hp|].
  split; [reflexivity|].
  destruct (upstream_failure_is_503 Sample.vendor0 Sample.P0
              Sample.W_product_down ∅ (Sample.req GET "/api/products" "")
              "/api/products" ProductService Hin Hu Hp)
    as (o & Ho & Hs & Hfail & _).
  exists o. split; [exact Ho|]. split; [exact Hs|].
  exact (Hfail Refused _ eq_refl).
Defined.

(** Against C3 as written (the gateway never hangs on an upstream): the
    product service takes the request and never answers; the gateway has
    sent it once and the client gets no reply. *)
Lemma unanswered_upstream_hangs :
  In ("/api/products", ProductService) routes
  /\ under "/api/products" (Sample.req GET "/api/products" "") = true
  /\ passes Sample.vendor0 Sample.P0 ∅ (Sample.req GET "/api/products" "") = true
  /\ exists o,
       handle (start Sample.vendor0 Sample.P0 (fun _ => Silent)) ∅
              (Sample.req GET "/api/products" "") = Some o
       /\ reply o = None
       /\ sent (final o)
          = [(ProductService,
              call_for Sample.P0 ProductService
                (Sample.req GET "/api/products" ""))].
Proof.
  split; [cbn; auto 10|]. do 2 (split; [reflexivity|]).
  eexists. split; [vm_compute; reflexivity|]. split; reflexivity.
Qed.

Section Relay.
Context (V : vendor) (P : process) (W : world).

(** C9.  When the upstream a request is routed to answers, the client
    receives the upstream's status code, whatever it is, and its body as
    they are.  The headers are not the upstream's alone: the client
    receives the upstream's headers, each with the value the upstream gave
    it, together with the headers the gateway's middleware had set on the
    response (security, CORS and rate-limit headers) wherever the upstream
    sets no header of that name.  The upstream was asked once, with the
    request's method and its original URL, at its configured base URL. *)
Theorem upstream_reply_relayed (h : gmap string nat) (r : request)
    (p : string) (u : upstream) (up : response) :
  In (p, u) routes -> under p r = true -> passes V P h r = true ->
  W (call_for P u r) = Replied up ->
  exists o res, handle (start V P W) h r = Some o
    /\ reply o = Some res
    /\ status res = status up
    /\ body res = body up
    /\ res_headers res = res_headers up ∪ out_headers (entered V P h r)
    /\ res_headers up ⊆ res_headers res
    /\ sent (final o) = [(u, call_for P u r)]
    /\ call_url (call_for P u r) = originalUrl r
    /\ call_method (call_for P u r) = method r
    /\ call_target (call_for P u r) = service_url P u.
Proof.
  intros Hin Hp Hpass Hw.
  rewrite handle_start, (dispatch_passes _ _ _ _ _ Hpass),
    (endpoints_routed _ _ _ _ _ _ _ Hin Hp).
  unfold proxied. rewrite Hw.
  do 2 eexists. split; [reflexivity|]. split; [reflexivity|]. cbn.
  repeat split. apply map_union_subseteq_l.
Qed.

End Relay.

(** C9 at work: the product service's 404 for product 7 reaches the
    client with the gateway's headers next to its own. *)
Lemma upstream_reply_relayed_witness :
  In ("/api/products", ProductService) routes
  /\ under "/api/products" (Sample.req GET "/api/products/7" "") = true
  /\ passes Sample.vendor0 Sample.P0 ∅
       (Sample.req GET "/api/products/7" "") = true
  /\ Sample.W_up
       (call_for Sample.P0 ProductService (Sample.req GET "/api/products/7" ""))
     = Replied {| status := 404;
                  res_headers := {[ "content-type" := "application/json" ]};
                  body := PText "{ error: Product not found }" |}
  /\ exists o res,
       handle (start Sample.vendor0 Sample.P0 Sample.W_up) ∅
              (Sample.req GET "/api/products/7" "") = Some o
       /\ reply o = Some res
       /\ status res = 404%Z
       /\ body res = PText "{ error: Product not found }"
       /\ res_headers res
          = ({[ "content-type" := "application/json" ]} : headers)
            ∪ out_headers (entered Sample.vendor0 Sample.P0 ∅
                             (Sample.req GET "/api/products/7" ""))
       /\ ({[ "content-type" := "application/json" ]} : headers)
          ⊆ res_headers res
       /\ sent (final o)
          = [(ProductService,
              call_for Sample.P0 ProductService
                (Sample.req GET "/api/products/7" ""))]
       /\ call_url (call_for Sample.P0 ProductService
                      (Sample.req GET "/api/products/7" ""))
          = "/api/products/7"
       /\ call_method (call_for Sample.P0 ProductService
                         (Sample.req GET "/api/products/7" ""))
          = GET
       /\ call_target (call_for Sample.P0 ProductService
                         (Sample.req GET "/api/products/7" ""))
          = service_url Sample.P0 ProductService.
Proof.
  split; [cbn; auto 10|]. do 3 (split; [reflexivity|]).
  assert (Hin : In ("/api/products", ProductService) routes)
    by (cbn; auto 10).
  exact (upstream_reply_relayed Sample.vendor0 Sample.P0 Sample.W_up ∅
           (Sample.req GET "/api/products/7" "") "/api/products"
           ProductService
           {| status := 404;
              res_headers := {[ "content-type" := "application/json" ]};
              body := PText "{ error: Product not found }" |}
           Hin eq_refl eq_refl eq_refl).
Defined.

(** Against C9 as written (the headers relayed unchanged): the product
    service sets one header on its answer for product 7; the client
    receives a header the product service never sent, set by the
    gateway's security middleware. *)
Lemma relayed_headers_gain_gateway_headers :
  exists o res up,
    handle (start Sample.vendor0 Sample.P0 Sample.W_up) ∅
           (Sample.req GET "/api/products/7" "") = Some o
    /\ Sample.W_up
         (call_for Sample.P0 ProductService
            (Sample.req GET "/api/products/7" "")) = Replied up
    /\ reply o = Some res
    /\ res_headers up !! "x-content-type-options" = None
    /\ res_headers res !! "x-content-type-options" = Some "nosniff"
    /\ res_headers res <> res_headers up.
Proof.
  do 3 eexists. split; [vm_compute; reflexivity|].
  split; [reflexivity|]. split; [reflexivity|].
  assert (Hup : ({[ "content-type" := "application/json" ]} : headers)
                !! "x-content-type-options" = None) by reflexivity.
  split; [exact Hup|]. cbn [reply res_headers].
  match goal with |- ?m !! _ = _ /\ _ =>
    assert (Hres : m !! "x-content-type-options" = Some "nosniff")
      by (vm_compute; reflexivity)
  end.
  split; [exact Hres|]. intros E. rewrite E in Hres. congruence.
Qed.

Section Root.
Context (V : vendor) (P : process) (W : world).


End Root.


Section HealthEndpoint.
Context (V : vendor) (P : process) (W : world).


End HealthEndpoint.



Section NotFound.
Context (V : vendor) (P : process) (W : world).

(** C4, as the code has it.  A request whose path is under no route
    prefix is never forwarded to an upstream.  It gets the structured
    404 (error text, the URL asked, the method; no body for a HEAD) when
    it has passed the middleware in front of the routes, is not addressed
    to one of the gateway's own endpoints (the documentation, a route of
    the health router, the root endpoint) and its path can be decoded.
    A path with a malformed percent escape makes the catch-all layer
    throw instead: such a request goes to the error middleware and is
    answered 500. *)
Theorem unrouted_is_404 (h : gmap string nat) (r : request) :
  unrouted r = true ->
  exists o, handle (start V P W) h r = Some o
    /\ sent (final o) = []
    /\ (passes V P h r = true -> docs_endpoint r = false ->
        health_endpoint r = false -> root_endpoint r = false ->
        (decodable (path r) = true ->
         reply o = Some {|
           status := 404;
           res_headers := out_headers (entered V P h r);
           body := written r (PJson (JObject [
             ("error", JString "Endpoint not found");
             ("path", JString (originalUrl r));
             ("method", JString (method_name (method r))) ])) |})
        /\ (decodable (path r) = false ->
            reply o = reply (error_reply P r (decode_error (path r))
                               (entered V P h r)))).
Proof.
  intros Hu. rewrite handle_start. eexists. split; [reflexivity|]. split.
  - destruct (serve_cases V P W h r)
      as [Hc Hh Hv Hs Hr | Hc Hu' Hn Hst Hb Hh Hv Hs | e Hc Hl He Ho
          | p u Hpass Hin' Hp' Ho | l Hpass Hu' Hh Hs Hr Hv Hl];
      try assumption.
    + now rewrite Ho.
    + rewrite (routed_not_unrouted r p u Hin' Hp') in Hu. discriminate.
  - intros Hpass Hd Hh Hr. rewrite (dispatch_passes _ _ _ _ _ Hpass). split.
    + intros Hdec.
      apply (endpoints_not_found V P (proxy_of P W) r _ Hu Hd Hh Hr Hdec).
    + intros Hdec.
      apply (endpoints_undecodable V P (proxy_of P W) r _
               Hu Hd Hh Hr Hdec).
Qed.

End NotFound.

(** C4 at work: the unknown path of the specification. *)
Lemma unrouted_is_404_witness :
  unrouted (Sample.req GET "/api/unknown" "") = true
  /\ exists o,
       handle (start Sample.vendor0 Sample.P0 Sample.W_up) ∅
              (Sample.req GET "/api/unknown" "") = Some o
       /\ sent (final o) = []
       /\ status <$> reply o = Some 404%Z.
Proof.
  split; [reflexivity|].
  destruct (unrouted_is_404 Sample.vendor0 Sample.P0 Sample.W_up ∅
              (Sample.req GET "/api/unknown" "") eq_refl)
    as (o & Ho & Hs & Hr).
  exists o. split; [exact Ho|]. split; [exact Hs|].
  destruct (Hr eq_refl eq_refl eq_refl eq_refl) as [H404 _].
  rewrite (H404 eq_refl). reflexivity.
Defined.

(** C4 as stated fails: the root path is under no route prefix, and a GET
    of it is answered 200 by the root endpoint. *)
Lemma root_path_is_not_404 :
  unrouted (Sample.req GET "/" "") = true
  /\ exists o,
       handle (start Sample.vendor0 Sample.P0 Sample.W_up) ∅
              (Sample.req GET "/" "") = Some o
       /\ status <$> reply o = Some 200%Z
       /\ visited (final o)
          = [Helmet; Cors; JsonParser; UrlencodedParser; RequestLogger;
             RootEndpoint].
Proof.
  split; [reflexivity|].
  eexists. split; [vm_compute; reflexivity|].
  repeat split.
Qed.

(** A path that cannot be decoded is under no route prefix either: it is
    answered 500 by the error middleware, which logs the failure. *)
Example malformed_path_is_500 :
  unrouted (Sample.req GET "/%zz" "") = true
  /\ decodable "/%zz" = false
  /\ exists o,
       handle (start Sample.vendor0 Sample.P0 Sample.W_up) ∅
              (Sample.req GET "/%zz" "") = Some o
       /\ status <$> reply o = Some 500%Z
       /\ sent (final o) = []
       /\ visited (final o)
          = [Helmet; Cors; JsonParser; UrlencodedParser; RequestLogger;
             ErrorHandler].
Proof.
  split; [reflexivity|]. split; [reflexivity|].
  eexists. split; [vm_compute; reflexivity|].
  repeat split.
Qed.

Section Limiter.
Context (V : vendor) (P : process) (W : world).

Lemma went_past_own (l : list stage) :
  forallb own_stage l = true -> went_past RateLimiter l = false.
Proof.
  induction l as [|s l IH]; [reflexivity|].
  cbn [forallb]. intros H. apply andb_prop in H as [Hs Hl].
  destruct s; try discriminate; cbn; auto.
Qed.

(** The store after a request: only the limiter writes to it, and only
    for what CORS lets through under its mount path. *)
Lemma served_hits (h : gmap string nat) (r : request) (o : outcome) :
  served V P W h r o ->
  hits (final o)
  = if cors_passes V P r && under "/api/" r
    then <[ip r := S (count h r)]> h else h.
Proof.
  intros [Hc Hh Hv Hs Hr | Hc Hu Hn Hst Hb Hh Hv Hs | e Hc Hl He Ho
          | p u Hpass Hin Hp Ho | l Hpass Hu Hh Hs Hr Hv Hl].
  - now rewrite Hc.
  - now rewrite Hc, Hu.
  - rewrite Ho, Hc. cbn. now destruct (under "/api/" r).
  - destruct (passes_inv V P h r Hpass) as (Hc & _).
    rewrite Ho, proxied_hits, Hc. cbn. now destruct (under "/api/" r).
  - destruct (passes_inv V P h r Hpass) as (Hc & _).
    rewrite Hh, Hc. cbn. now destruct (under "/api/" r).
Qed.

(** The limiter lets a request through exactly when it reaches the
    limiter with a count below the threshold. *)
Lemma served_went_past (h : gmap string nat) (r : request) (o : outcome) :
  served V P W h r o ->
  went_past RateLimiter (visited (final o))
  = cors_passes V P r && under "/api/" r && (count h r <? 300)%nat.
Proof.
  intros [Hc Hh Hv Hs Hr | Hc Hu Hn Hst Hb Hh Hv Hs | e Hc Hl He Ho
          | p u Hpass Hin Hp Ho | l Hpass Hu Hh Hs Hr Hv Hl].
  - now rewrite Hv, Hc.
  - rewrite Hv, Hc, Hu. cbn. symmetry. now apply Nat.ltb_ge.
  - rewrite Ho, Hc. cbn.
    destruct (under "/api/" r); cbn in Hl |- *.
    + now rewrite Hl.
    + now destruct (is_some (json_parser V r)).
  - destruct (passes_inv V P h r Hpass) as (Hc & Hl & _).
    rewrite Ho, proxied_visited, Hc. unfold entered. cbn [visited].
    rewrite (under_api r p u Hin Hp) in Hl |- *. cbn in Hl.
    now rewrite Hl.
  - destruct (passes_inv V P h r Hpass) as (Hc & Hl' & _).
    rewrite Hv, Hc. cbn.
    destruct (under "/api/" r); cbn in Hl' |- *.
    + now rewrite Hl'.
    + now apply went_past_own.
Qed.

Lemma admitted_cons (k : string) (r : request) (o : outcome)
                    (rest : list (request * outcome)) :
  admitted k ((r, o) :: rest)
  = ((if String.eqb (ip r) k
         && went_past RateLimiter (visited (final o))
      then 1 else 0) + admitted k rest)%nat.
Proof.
  unfold admitted. cbn [List.filter fst snd].
  now destruct (String.eqb (ip r) k
                && went_past RateLimiter (visited (final o))).
Qed.


End Limiter.

Section RateLimit.
Context (V : vendor) (P : process) (W : world).


End RateLimit.



Section ErrorDetail.
Context (V : vendor) (P : process) (W : world).

(** C6, as the code has it.  What the error middleware answers depends
    on the environment.  An error raised by a body parser is answered
    500 with the fixed text [Internal Server Error] and a message, and
    logged with the error itself; the message is the fixed text
    [Something went wrong] unless NODE_ENV is [development], in which
    case it is the message of the exception.  The stack is in neither.
    The health route's own failure answer carries the message of the
    exception under every environment.  (No body is written in answer
    to a HEAD request.) *)
Theorem error_detail_follows_environment :
  (forall (h : gmap string nat) (r : request) (e : error),
     cors_passes V P r = true ->
     negb (under "/api/" r) || (count h r <? 300)%nat = true ->
     parse_error V r = Some e ->
     exists o, handle (start V P W) h r = Some o
       /\ status <$> reply o = Some 500%Z
       /\ body <$> reply o = Some (written r (PJson (JObject [
            ("error", JString "Internal Server Error");
            ("message",
             JString (if decide (NODE_ENV (env P) = Some "development")
                      then message e else "Something went wrong")) ])))
       /\ last (logs (final o))
          = Some {| log_level := Err; log_text := "Unhandled error:";
                    log_error := Some e |}
       /\ sent (final o) = [])
  /\ (forall (h : gmap string nat) (r : request) (url : string) (e : error),
        passes V P h r = true ->
        use_match "/health" (path r) = Some url ->
        get_method (method r) = true -> route_match "/" url = true ->
        memoryUsage P = inl e ->
        exists o, handle (start V P W) h r = Some o
          /\ status <$> reply o = Some 503%Z
          /\ body <$> reply o = Some (written r (PJson (JObject [
               ("status", JString "unhealthy");
               ("service", JString "api-gateway");
               ("timestamp", JString (now P));
               ("error", JString (message e)) ])))).
Proof.
  split.
  - intros h r e Hc Hl He.
    rewrite handle_start, (dispatch_parse_error _ _ _ _ _ _ Hc Hl He).
    eexists. split; [reflexivity|]. now cbn.
  - intros h r url e Hpass Hh Hm Hr He.
    rewrite handle_start, (dispatch_passes _ _ _ _ _ Hpass),
      (endpoints_health _ _ _ _ _ _ Hh Hm Hr).
    eexists. split; [reflexivity|].
    unfold Health.health. rewrite He. now cbn.
Qed.

End ErrorDetail.

(** C6 at work: a truncated JSON body in production. *)
Lemma error_detail_follows_environment_witness :
  cors_passes Sample.vendor0 (Sample.process_of Sample.env_unresolvable)
    (Sample.req POST "/api/orders" "{") = true
  /\ negb (under "/api/" (Sample.req POST "/api/orders" "{"))
     || (count ∅ (Sample.req POST "/api/orders" "{") <? 300)%nat = true
  /\ parse_error Sample.vendor0 (Sample.req POST "/api/orders" "{")
     = Some (Error "Unexpected end of JSON input"
                   "SyntaxError: Unexpected end of JSON input")
  /\ exists o,
       handle (start Sample.vendor0 (Sample.process_of Sample.env_unresolvable)
                 Sample.W_up) ∅ (Sample.req POST "/api/orders" "{") = Some o
       /\ status <$> reply o = Some 500%Z
       /\ body <$> reply o = Some (PJson (JObject [
            ("error", JString "Internal Server Error");
            ("message", JString "Something went wrong") ])).
Proof.
  do 3 (split; [reflexivity|]).
  assert (Hl : negb (under "/api/" (Sample.req POST "/api/orders" "{"))
               || (count ∅ (Sample.req POST "/api/orders" "{") <? 300)%nat
               = true) by reflexivity.
  destruct (proj1 (error_detail_follows_environment Sample.vendor0
                     (Sample.process_of Sample.env_unresolvable) Sample.W_up)
              ∅ (Sample.req POST "/api/orders" "{")
              (Error "Unexpected end of JSON input"
                     "SyntaxError: Unexpected end of JSON input")
              eq_refl Hl eq_refl) as (o & Ho & Hst & Hb & _).
  exists o. split; [exact Ho|]. split; [exact Hst|]. exact Hb.
Defined.

(** C6 as stated fails: with NODE_ENV set to [development] the parser's
    exception message is in the body the client receives. *)
Lemma development_discloses_exception_message :
  message <$> json_parser Sample.vendor0 (Sample.req POST "/api/orders" "{")
  = Some "Unexpected end of JSON input"
  /\ exists o,
       handle (start Sample.vendor0 (Sample.process_of Sample.env_development)
                 Sample.W_up) ∅ (Sample.req POST "/api/orders" "{") = Some o
       /\ status <$> reply o = Some 500%Z
       /\ body <$> reply o = Some (PJson (JObject [
            ("error", JString "Internal Server Error");
            ("message", JString "Unexpected end of JSON input") ])).
Proof.
  split; [reflexivity|].
  eexists. split; [vm_compute; reflexivity|].
  repeat split.
Qed.

Section Startup.
Context (V : vendor) (P : process) (W : world).

(** C7, as the code has it.  Nothing is validated at startup.  Each
    proxy's target is the upstream's environment variable or, when that
    is unset or empty, its default, so a target is never missing; the
    process always begins listening and takes every request; a target
    whose connection fails shows at run time, as the 503 of the proxy's
    error handler for the requests routed to it. *)
Theorem start_always_listens :
  start V P W = Listening (port P) (stack V P (proxy_of P W))
  /\ (forall u, Proxy.target (serviceOptions P u) = service_url P u
                /\ service_url P u <> "")
  /\ (forall (h : gmap string nat) (r : request),
        exists o, handle (start V P W) h r = Some o
          /\ (forall p u f e,
                In (p, u) routes -> under p r = true ->
                passes V P h r = true ->
                W (call_for P u r) = ConnFailed f e ->
                status <$> reply o = Some 503%Z)).
Proof.
  split; [apply start_listening|]. split.
  - intros u. split; [now destruct u|].
    intros E. pose proof (service_url_filled P u) as H.
    rewrite E in H. discriminate.
  - intros h r. rewrite handle_start. eexists. split; [reflexivity|].
    intros p u f e Hin Hp Hpass Hw.
    rewrite (dispatch_passes _ _ _ _ _ Hpass),
      (endpoints_routed _ _ _ _ _ _ _ Hin Hp).
    unfold proxied. now rewrite Hw.
Qed.

End Startup.

(** C7 as stated fails: with the user service's URL set to a name that
    does not resolve, the gateway starts listening all the same, and the
    failure reaches the client of a user route as a 503 at run time. *)
Lemma unresolvable_upstream_is_served :
  (forall k,
     call_target k
     = service_url (Sample.process_of Sample.env_unresolvable) UserService ->
     exists e, Sample.W_unresolvable k = ConnFailed DnsFailure e)
  /\ start Sample.vendor0 (Sample.process_of Sample.env_unresolvable)
       Sample.W_unresolvable
     = Listening "8080"
         (stack Sample.vendor0 (Sample.process_of Sample.env_unresolvable)
            (proxy_of (Sample.process_of Sample.env_unresolvable)
               Sample.W_unresolvable))
  /\ exists o,
       handle (start Sample.vendor0 (Sample.process_of Sample.env_unresolvable)
                 Sample.W_unresolvable) ∅ (Sample.req GET "/api/users" "")
       = Some o
       /\ status <$> reply o = Some 503%Z.
Proof.
  split; [|split].
  - intros k Hk. unfold Sample.W_unresolvable. rewrite Hk. cbn. eauto.
  - reflexivity.
  - eexists. split; [vm_compute; reflexivity|]. reflexivity.
Qed.

Section LimiterFirst.
Context (V : vendor) (P : process) (W : world).






End LimiterFirst.


(** C7 at work: the default deployment starts on port 8080. *)
Lemma start_always_listens_witness :
  start Sample.vendor0 Sample.P0 Sample.W_up
  = Listening "8080"
      (stack Sample.vendor0 Sample.P0 (proxy_of Sample.P0 Sample.W_up)).
Proof.
  exact (proj1 (start_always_listens Sample.vendor0 Sample.P0 Sample.W_up)).
Defined.


(** * Further properties of the code *)

Import More.

Section LimiterExact.
Context (V : vendor) (P : process) (W : world).

Lemma reaching_cons (k : string) (r : request) (rs : list request) :
  reaching V P k (r :: rs)
  = ((if String.eqb (ip r) k && (cors_passes V P r && under "/api/" r)
      then 1 else 0) + reaching V P k rs)%nat.
Proof.
  unfold reaching. cbn [List.filter].
  now destruct (String.eqb (ip r) k && (cors_passes V P r && under "/api/" r)).
Qed.

(** Within a window the limiter lets through exactly the first requests of
    a client that reach it, as many as its count leaves room for under the
    threshold of 300, and rejects the others; neither the requests of
    other clients nor their order change that number.  A new window
    starts from an empty store, whatever the counts were. *)
Theorem limiter_admits_exactly (k : string) (rs : list request)
                               (h : gmap string nat) :
  admitted k (serve (start V P W) h (map Inbound rs))
  = Nat.min (reaching V P k rs) (300 - default 0%nat (h !! k))
  /\ admitted k (serve (start V P W) h (WindowElapsed :: map Inbound rs))
     = Nat.min (reaching V P k rs) 300.
Proof.
  assert (Hwin : forall rs h,
    admitted k (serve (start V P W) h (map Inbound rs))
    = Nat.min (reaching V P k rs) (300 - default 0%nat (h !! k))).
  { clear rs h. induction rs as [|r rs IH]; intros h; [reflexivity|].
    cbn [map serve]. rewrite handle_start.
    pose proof (serve_cases V P W h r) as Hserved.
    set (o := dispatch (stack V P (proxy_of P W)) r None (fresh h)) in *.
    rewrite admitted_cons, reaching_cons,
      (served_went_past V P W h r o Hserved),
      (served_hits V P W h r o Hserved).
    destruct (cors_passes V P r && under "/api/" r); cbn [andb].
    - rewrite (IH (<[ip r := S (count h r)]> h)).
      destruct (String.eqb_spec (ip r) k) as [E|Hne]; cbn [andb].
      + subst k. rewrite lookup_insert_eq. cbn [default id].
        unfold count.
        destruct (Nat.ltb_spec (default 0%nat (h !! ip r)) 300); lia.
      + rewrite lookup_insert_ne by exact Hne. lia.
    - rewrite (IH h), !andb_false_r. lia. }
  split; [apply Hwin|].
  cbn [serve]. rewrite Hwin. unfold RateLimit.resetAll.
  rewrite lookup_empty. cbn [default]. f_equal.
Qed.

End LimiterExact.

Section Logging.
Context (V : vendor) (P : process) (W : world).

Lemma proxied_logs (u : upstream) (r : request) (c : ctx) :
  exists l, logs (final (proxied P W u r c)) = (logs c ++ l)%list.
Proof.
  unfold proxied. destruct (W (call_for P u r)); cbn.
  - exists []. now rewrite app_nil_r.
  - eexists. reflexivity.
  - exists []. now rewrite app_nil_r.
Qed.

(** The endpoints only add to the log. *)
Lemma endpoints_logs (r : request) (c : ctx) :
  exists l,
    logs (final (dispatch (endpoints V P (proxy_of P W)) r None c))
    = (logs c ++ l)%list.
Proof.
  destruct (unrouted r) eqn:Hu.
  2:{ destruct (routed_spec r Hu) as (p & u & Hin & Hp).
      rewrite (endpoints_routed _ _ _ _ _ _ _ Hin Hp). apply proxied_logs. }
  unfold endpoints. cbn [Datatypes.app].
  destruct (use_match "/api-docs" (path r)) as [url|] eqn:Ed.
  { enter. cbn. exists []. now rewrite app_nil_r. }
  skip.
  assert (Hrest : forall c', logs c' = logs c ->
    exists l,
      logs (final (dispatch
        (proxies (proxy_of P W)
         ++ [Use (GetRoute "/") RootEndpoint (root P);
             Use Star NotFoundHandler not_found;
             UseError ErrorHandler (error_mw P)]) r None c'))
      = (logs c ++ l)%list).
  { intros c' Hc. rewrite proxies_skipped by exact Hu.
    destruct (matches (GetRoute "/") r) as [url|] eqn:Er.
    - enter. cbn. exists []. now rewrite app_nil_r.
    - skip. rewrite dispatch_star.
      destruct (decodable (path r)); [|rewrite dispatch_error]; cbn.
      + exists []. now rewrite app_nil_r.
      + rewrite Hc. eexists. reflexivity. }
  destruct (use_match "/health" (path r)) as [url|] eqn:Eh.
  - enter. unfold Health.router, Health.Router.
    destruct (get_method (method r)); [|now apply Hrest].
    cbn [List.find fst snd].
    destruct (route_match "/" url).
    { unfold Health.health. destruct (memoryUsage P); cbn.
      - eexists. reflexivity.
      - exists []. now rewrite app_nil_r. }
    destruct (route_match "/ready" url).
    { cbn. exists []. now rewrite app_nil_r. }
    destruct (route_match "/live" url).
    { cbn. exists []. now rewrite app_nil_r. }
    now apply Hrest.
  - skip. now apply Hrest.
Qed.

(** The request logging middleware stands behind CORS, the rate limiter
    and the body parsers: a request is logged with its method, path and
    client address, as the first line, exactly when it passes them.  What
    the limiter rejects leaves no line at all, and a body the parsers
    refuse leaves the error line only. *)
Theorem request_logged_iff_passes (h : gmap string nat) (r : request) :
  exists o, handle (start V P W) h r = Some o
    /\ (passes V P h r = true ->
        exists l, logs (final o) = info_line r :: l)
    /\ (passes V P h r = false -> ~ In (info_line r) (logs (final o)))
    /\ (cors_passes V P r = true -> under "/api/" r = true ->
        (300 <= count h r)%nat -> logs (final o) = [])
    /\ (forall e, cors_passes V P r = true ->
        negb (under "/api/" r) || (count h r <? 300)%nat = true ->
        parse_error V r = Some e ->
        logs (final o)
        = [{| log_level := Err; log_text := "Unhandled error:";
              log_error := Some e |}]).
Proof.
  rewrite handle_start. eexists. split; [reflexivity|].
  split; [|split; [|split]].
  - intros Hpass. rewrite (dispatch_passes _ _ _ _ _ Hpass).
    destruct (endpoints_logs r (entered V P h r)) as [l ->].
    exists l. reflexivity.
  - intros Hpass.
    destruct (cors V (allowed_origins P) true r) as [hd|res] eqn:Ec.
    2:{ rewrite (dispatch_cors_answers _ _ _ _ _ _ Ec). cbn. auto. }
    assert (Hc : cors_passes V P r = true)
      by (unfold cors_passes; now rewrite Ec).
    destruct (under "/api/" r && negb (count h r <? 300)%nat) eqn:El.
    { apply andb_prop in El as [Hu Hn]. apply negb_true_iff in Hn.
      apply Nat.ltb_ge in Hn.
      rewrite (dispatch_limited _ _ _ _ _ _ Ec Hu Hn). cbn. auto. }
    assert (Hl : negb (under "/api/" r) || (count h r <? 300)%nat = true).
    { destruct (under "/api/" r), (count h r <? 300)%nat;
        try reflexivity; discriminate. }
    destruct (parse_error V r) as [e|] eqn:Ee.
    { rewrite (dispatch_parse_error _ _ _ _ _ _ Hc Hl Ee). cbn.
      intros [H|[]]. discriminate. }
    exfalso. unfold passes, parsers_pass in Hpass.
    rewrite Hc, Hl in Hpass. unfold parse_error in Ee.
    destruct (json_parser V r); [discriminate|].
    rewrite Ee in Hpass. discriminate.
  - intros Hc Hu Hn.
    destruct (cors V (allowed_origins P) true r) as [hd|res] eqn:Ec.
    + now rewrite (dispatch_limited _ _ _ _ _ _ Ec Hu Hn).
    + unfold cors_passes in Hc. now rewrite Ec in Hc.
  - intros e Hc Hl He.
    rewrite (dispatch_parse_error _ _ _ _ _ _ Hc Hl He).
    unfold error_reply, refused. cbn.
    now destruct (json_parser V r), (under "/api/" r).
Qed.

End Logging.

(** The log at work: a product request is logged first; a truncated JSON
    body leaves the error handler's line alone; a request over the limit
    leaves nothing. *)
Lemma request_logged_iff_passes_witness :
  (passes Sample.vendor0 Sample.P0 ∅ (Sample.req GET "/api/products" "") = true
   /\ exists o,
        handle (start Sample.vendor0 Sample.P0 Sample.W_up) ∅
               (Sample.req GET "/api/products" "") = Some o
        /\ exists l,
             logs (final o) = info_line (Sample.req GET "/api/products" "") :: l)
  /\ (passes Sample.vendor0 Sample.P0 ∅
        (Sample.req POST "/api/orders" "{") = false
      /\ parse_error Sample.vendor0 (Sample.req POST "/api/orders" "{")
         = Some (Error "Unexpected end of JSON input"
                       "SyntaxError: Unexpected end of JSON input")
      /\ exists o,
           handle (start Sample.vendor0 Sample.P0 Sample.W_up) ∅
                  (Sample.req POST "/api/orders" "{") = Some o
           /\ ~ In (info_line (Sample.req POST "/api/orders" "{"))
                   (logs (final o))
           /\ logs (final o)
              = [{| log_level := Err; log_text := "Unhandled error:";
                    log_error := Some
                      (Error "Unexpected end of JSON input"
                             "SyntaxError: Unexpected end of JSON input") |}])
  /\ (cors_passes Sample.vendor0 Sample.P0
        (Sample.req GET "/api/products" "") = true
      /\ under "/api/" (Sample.req GET "/api/products" "") = true
      /\ (300 <= count Sample.spent (Sample.req GET "/api/products" ""))%nat
      /\ exists o,
           handle (start Sample.vendor0 Sample.P0 Sample.W_up) Sample.spent
                  (Sample.req GET "/api/products" "") = Some o
           /\ logs (final o) = []).
Proof.
  assert (Hn : (300 <= count Sample.spent
                         (Sample.req GET "/api/products" ""))%nat)
    by (vm_compute; lia).
  assert (Hl : negb (under "/api/" (Sample.req POST "/api/orders" "{"))
               || (count ∅ (Sample.req POST "/api/orders" "{") <? 300)%nat
               = true) by reflexivity.
  split; [|split].
  - split; [reflexivity|].
    destruct (request_logged_iff_passes Sample.vendor0 Sample.P0 Sample.W_up
                ∅ (Sample.req GET "/api/products" ""))
      as (o & Ho & H1 & _).
    exists o. split; [exact Ho|]. exact (H1 eq_refl).
  - do 2 (split; [reflexivity|]).
    destruct (request_logged_iff_passes Sample.vendor0 Sample.P0 Sample.W_up
                ∅ (Sample.req POST "/api/orders" "{"))
      as (o & Ho & _ & H2 & _ & H4).
    exists o. split; [exact Ho|]. split; [exact (H2 eq_refl)|].
    exact (H4 _ eq_refl Hl eq_refl).
  - do 2 (split; [reflexivity|]). split; [exact Hn|].
    destruct (request_logged_iff_passes Sample.vendor0 Sample.P0 Sample.W_up
                Sample.spent (Sample.req GET "/api/products" ""))
      as (o & Ho & _ & _ & H3 & _).
    exists o. split; [exact Ho|]. exact (H3 eq_refl eq_refl Hn).
Defined.

Section Probes.
Context (V : vendor) (P : process) (W : world).







End Probes.


Section ProxyEnds.
Context (V : vendor) (P : process).

(** What the client is told of a failed connection does not depend on the
    failure: two runs that differ in the kind of failure and in its error
    (with its message and addresses) give the client the same response;
    the error goes to the log only. *)
Theorem proxy_failure_reply_hides_error (W W' : world)
    (h : gmap string nat) (r : request) (p : string) (u : upstream)
    (f f' : failure) (e e' : error) :
  In (p, u) routes -> under p r = true -> passes V P h r = true ->
  W (call_for P u r) = ConnFailed f e ->
  W' (call_for P u r) = ConnFailed f' e' ->
  exists o o',
    handle (start V P W) h r = Some o
    /\ handle (start V P W') h r = Some o'
    /\ reply o = reply o'
    /\ is_some (reply o) = true
    /\ last (logs (final o)) = Some {| log_level := Err;
                                       log_text := error_label u;
                                       log_error := Some e |}
    /\ last (logs (final o')) = Some {| log_level := Err;
                                        log_text := error_label u;
                                        log_error := Some e' |}.
Proof.
  intros Hin Hp Hpass Hw Hw'.
  rewrite !handle_start, !(dispatch_passes _ _ _ _ _ Hpass),
    !(endpoints_routed _ _ _ _ _ _ _ Hin Hp).
  do 2 eexists. split; [reflexivity|]. split; [reflexivity|].
  unfold proxied. rewrite Hw, Hw'. now cbn.
Qed.

(** No timeout is set on the proxies: when the upstream a request is
    routed to never answers, the gateway writes no response, calls the
    upstream once and logs nothing but the request line. *)
Theorem silent_upstream_leaves_request_open (W : world)
    (h : gmap string nat) (r : request) (p : string) (u : upstream) :
  In (p, u) routes -> under p r = true -> passes V P h r = true ->
  W (call_for P u r) = Silent ->
  exists o, handle (start V P W) h r = Some o
    /\ reply o = None
    /\ sent (final o) = [(u, call_for P u r)]
    /\ logs (final o) = [info_line r].
Proof.
  intros Hin Hp Hpass Hw.
  rewrite handle_start, (dispatch_passes _ _ _ _ _ Hpass),
    (endpoints_routed _ _ _ _ _ _ _ Hin Hp).
  eexists. split; [reflexivity|].
  unfold proxied. rewrite Hw. now cbn.
Qed.

End ProxyEnds.

(** The same request against a refused and against an unresolved
    upstream. *)
Lemma proxy_failure_reply_hides_error_witness :
  In ("/api/cart", OrderService) routes
  /\ under "/api/cart" (Sample.req GET "/api/cart/3" "") = true
  /\ passes Sample.vendor0 Sample.P0 ∅ (Sample.req GET "/api/cart/3" "") = true
  /\ exists o o',
    handle (start Sample.vendor0 Sample.P0
              (fun _ => ConnFailed Refused (Error "connect ECONNREFUSED" "")))
           ∅ (Sample.req GET "/api/cart/3" "") = Some o
    /\ handle (start Sample.vendor0 Sample.P0
                 (fun _ => ConnFailed DnsFailure (Error "getaddrinfo ENOTFOUND" "")))
              ∅ (Sample.req GET "/api/cart/3" "") = Some o'
    /\ reply o = reply o'.
Proof.
  assert (Hin : In ("/api/cart", OrderService) routes) by (cbn; auto 10).
  assert (Hu : under "/api/cart" (Sample.req GET "/api/cart/3" "") = true)
    by reflexivity.
  assert (Hp : passes Sample.vendor0 Sample.P0 ∅
                 (Sample.req GET "/api/cart/3" "") = true) by reflexivity.
  do 3 (split; [assumption|]).
  destruct (proxy_failure_reply_hides_error Sample.vendor0 Sample.P0
              (fun _ => ConnFailed Refused (Error "connect ECONNREFUSED" ""))
              (fun _ => ConnFailed DnsFailure (Error "getaddrinfo ENOTFOUND" ""))
              ∅ (Sample.req GET "/api/cart/3" "") "/api/cart" OrderService
              Refused DnsFailure
              (Error "connect ECONNREFUSED" "")
              (Error "getaddrinfo ENOTFOUND" "")
              Hin Hu Hp eq_refl eq_refl)
    as (o & o' & Ho & Ho' & Hr & _).
  exists o, o'. auto.
Defined.

(** An order request against upstreams that never answer. *)
Lemma silent_upstream_leaves_request_open_witness :
  In ("/api/orders", OrderService) routes
  /\ under "/api/orders" (Sample.req GET "/api/orders" "") = true
  /\ passes Sample.vendor0 Sample.P0 ∅ (Sample.req GET "/api/orders" "") = true
  /\ exists o,
       handle (start Sample.vendor0 Sample.P0 (fun _ => Silent)) ∅
              (Sample.req GET "/api/orders" "") = Some o
       /\ reply o = None
       /\ sent (final o)
          = [(OrderService,
              call_for Sample.P0 OrderService (Sample.req GET "/api/orders" ""))]
       /\ logs (final o) = [info_line (Sample.req GET "/api/orders" "")].
Proof.
  assert (Hin : In ("/api/orders", OrderService) routes) by (cbn; auto 10).
  assert (Hu : under "/api/orders" (Sample.req GET "/api/orders" "") = true)
    by reflexivity.
  assert (Hp : passes Sample.vendor0 Sample.P0 ∅
                 (Sample.req GET "/api/orders" "") = true) by reflexivity.
  do 3 (split; [assumption|]).
  exact (silent_upstream_leaves_request_open Sample.vendor0 Sample.P0
           (fun _ => Silent) ∅ (Sample.req GET "/api/orders" "")
           "/api/orders" OrderService Hin Hu Hp eq_refl).
Defined.

Section HealthFallsThrough.
Context (V : vendor) (P : process) (W : world).

Lemma under_health_unrouted (r : request) :
  under "/health" r = true ->
  unrouted r = true /\ docs_endpoint r = false /\ root_endpoint r = false.
Proof.
  unfold under. intros H. split; [|split].
  - apply unrouted_spec. cbn [In routes]. intros p u Hin.
    repeat destruct Hin as [Hin|Hin]; try contradiction; simplify_eq;
      (eapply use_match_disjoint; [|exact H]; reflexivity).
  - unfold docs_endpoint, under.
    erewrite use_match_disjoint; [reflexivity| |exact H]. reflexivity.
  - unfold root_endpoint.
    destruct (route_match "/" (path r)) eqn:E; [|apply andb_false_r].
    destruct (route_match_root _ E) as [E'|E']; rewrite E' in H; discriminate.
Qed.

(** The health router answers its three GET routes only: any other
    request under its mount path (another method, another sub-path) leaves
    it through [next()]; no upstream is called.  When its path can be
    decoded it ends in the 404 handler, not in a 405, and only the
    request line is logged.  A path with a malformed percent escape ends
    in the error middleware instead: the answer is 500 and a second
    line, the error's, is logged. *)
Theorem health_router_falls_through (h : gmap string nat) (r : request) :
  passes V P h r = true -> under "/health" r = true ->
  health_endpoint r = false ->
  exists o, handle (start V P W) h r = Some o
    /\ sent (final o) = []
    /\ (decodable (path r) = true ->
        reply o = Some {|
          status := 404;
          res_headers := out_headers (entered V P h r);
          body := written r (PJson (JObject [
            ("error", JString "Endpoint not found");
            ("path", JString (originalUrl r));
            ("method", JString (method_name (method r))) ])) |}
        /\ logs (final o) = [info_line r])
    /\ (decodable (path r) = false ->
        reply o = reply (error_reply P r (decode_error (path r))
                           (entered V P h r))
        /\ logs (final o)
           = [info_line r;
              {| log_level := Err; log_text := "Unhandled error:";
                 log_error := Some (decode_error (path r)) |}]).
Proof.
  intros Hpass Hu Hh.
  destruct (under_health_unrouted r Hu) as (Hun & Hd & Hr).
  rewrite handle_start, (dispatch_passes _ _ _ _ _ Hpass).
  eexists. split; [reflexivity|].
  destruct (endpoints_own V P (proxy_of P W) r (entered V P h r) Hun)
    as (_ & Hs & _).
  split; [exact Hs|]. split; intros Hdec.
  - exact (endpoints_not_found V P (proxy_of P W) r (entered V P h r)
             Hun Hd Hh Hr Hdec).
  - exact (endpoints_undecodable V P (proxy_of P W) r (entered V P h r)
             Hun Hd Hh Hr Hdec).
Qed.

End HealthFallsThrough.

(** A POST to the health route, and a GET under it of a path that cannot
    be decoded. *)
Lemma health_router_falls_through_witness :
  (passes Sample.vendor0 Sample.P0 ∅ (Sample.req POST "/health" "") = true
   /\ under "/health" (Sample.req POST "/health" "") = true
   /\ health_endpoint (Sample.req POST "/health" "") = false
   /\ decodable (path (Sample.req POST "/health" "")) = true
   /\ exists o,
        handle (start Sample.vendor0 Sample.P0 Sample.W_up) ∅
               (Sample.req POST "/health" "") = Some o
        /\ status <$> reply o = Some 404%Z
        /\ sent (final o) = [])
  /\ (passes Sample.vendor0 Sample.P0 ∅
        (Sample.req GET "/health/%E0%A4%A" "") = true
      /\ under "/health" (Sample.req GET "/health/%E0%A4%A" "") = true
      /\ health_endpoint (Sample.req GET "/health/%E0%A4%A" "") = false
      /\ decodable (path (Sample.req GET "/health/%E0%A4%A" "")) = false
      /\ exists o,
           handle (start Sample.vendor0 Sample.P0 Sample.W_up) ∅
                  (Sample.req GET "/health/%E0%A4%A" "") = Some o
           /\ status <$> reply o = Some 500%Z
           /\ length (logs (final o)) = 2%nat).
Proof.
  assert (Hp : passes Sample.vendor0 Sample.P0 ∅
                 (Sample.req POST "/health" "") = true) by reflexivity.
  assert (Hu : under "/health" (Sample.req POST "/health" "") = true)
    by reflexivity.
  assert (Hh : health_endpoint (Sample.req POST "/health" "") = false)
    by reflexivity.
  assert (Hp' : passes Sample.vendor0 Sample.P0 ∅
                  (Sample.req GET "/health/%E0%A4%A" "") = true)
    by reflexivity.
  assert (Hu' : under "/health" (Sample.req GET "/health/%E0%A4%A" "") = true)
    by reflexivity.
  assert (Hh' : health_endpoint (Sample.req GET "/health/%E0%A4%A" "")
                = false) by reflexivity.
  split.
  - do 3 (split; [assumption|]). split; [reflexivity|].
    destruct (health_router_falls_through Sample.vendor0 Sample.P0 Sample.W_up
                ∅ (Sample.req POST "/health" "") Hp Hu Hh)
      as (o & Ho & Hs & H404 & _).
    exists o. split; [exact Ho|]. split; [|exact Hs].
    destruct (H404 eq_refl) as [Hr _]. now rewrite Hr.
  - do 3 (split; [assumption|]). split; [reflexivity|].
    destruct (health_router_falls_through Sample.vendor0 Sample.P0 Sample.W_up
                ∅ (Sample.req GET "/health/%E0%A4%A" "") Hp' Hu' Hh')
      as (o & Ho & _ & _ & H500).
    exists o. split; [exact Ho|].
    destruct (H500 eq_refl) as [Hr Hl]. rewrite Hr, Hl. now split.
Defined.

Section Figures.

(** The memory figures of the health report are megabytes rounded to the
    nearest, halves upwards: each is within half a mebibyte of the byte
    count it stands for. *)
Theorem memory_figure_is_nearest_megabyte (bytes : Z) :
  exists m : Z,
    Health.MB bytes = JNumber (inject_Z m)
    /\ (m * 1048576 - 524288 <= bytes < m * 1048576 + 524288)%Z.
Proof.
  unfold Health.MB. eexists. split; [reflexivity|].
  unfold Math_round, Qfloor, Qplus, Qdiv, Qmult, Qinv, inject_Z. cbn.
  change (Z.pos (1 * 1024 * 1024 * 2)) with 2097152%Z.
  change (Z.pos (1 * 1024 * 1024)) with 1048576%Z.
  Z.div_mod_to_equations. lia.
Qed.

Lemma split_on_filled (sep : ascii) (s : string) : split_on sep s <> [].
Proof.
  destruct s as [|c s]; cbn; [discriminate|].
  destruct (Ascii.eqb c sep); [discriminate|].
  now destruct (split_on sep s).
Qed.

Lemma split_on_concat (s : string) :
  String.concat "," (split_on "," s) = s.
Proof.
  induction s as [|c s IH]; [reflexivity|].
  cbn [split_on]. pose proof (split_on_filled "," s) as Hne.
  destruct (Ascii.eqb_spec c ","%char) as [->|Hc];
    destruct (split_on "," s) as [|w ws] eqn:E; try contradiction.
  - cbn [String.concat] in IH |- *. now rewrite IH.
  - cbn [String.concat] in IH |- *. rewrite <- IH. now destruct ws.
Qed.

Lemma split_on_pieces (sep : ascii) (s : string) :
  Forall (fun piece => occurs sep piece = false) (split_on sep s).
Proof.
  induction s as [|c s IH]; [now repeat constructor|].
  cbn [split_on]. destruct (Ascii.eqb c sep) eqn:Ec.
  - now constructor.
  - destruct (split_on sep s) as [|w ws].
    + repeat constructor. cbn. now rewrite Ec.
    + inversion IH as [|? ? Hw Hws]; subst. constructor; [|exact Hws].
      cbn. now rewrite Ec.
Qed.

(** The origins CORS is configured with are the pieces of
    ALLOWED_ORIGINS between its commas, untrimmed: no origin holds a
    comma, and joined by commas they give the variable back.  There is
    always at least one, the local front end when the variable is unset;
    an empty variable gives one empty origin, not the default. *)
Theorem allowed_origins_are_the_pieces (P : process) :
  allowed_origins P <> []
  /\ match ALLOWED_ORIGINS (env P) with
     | Some s => String.concat "," (allowed_origins P) = s
                 /\ Forall (fun origin => occurs "," origin = false)
                           (allowed_origins P)
     | None => allowed_origins P = ["http://localhost:3000"]
     end
  /\ (ALLOWED_ORIGINS (env P) = Some "" -> allowed_origins P = [""]).
Proof.
  unfold allowed_origins. destruct (ALLOWED_ORIGINS (env P)) as [s|].
  - split; [apply split_on_filled|].
    split; [split; [apply split_on_concat|apply split_on_pieces]|].
    intros H. now simplify_eq.
  - split; [discriminate|]. split; [reflexivity|discriminate].
Qed.

End Figures.

(** Two origins and a stray comma: three pieces, the last one empty. *)
Lemma allowed_origins_are_the_pieces_witness :
  allowed_origins
    (Sample.process_of
       {| PORT := None; NODE_ENV := None;
          ALLOWED_ORIGINS := Some "https://shop.example,https://admin.example,";
          USER_SERVICE_URL := None; PRODUCT_SERVICE_URL := None;
          ORDER_SERVICE_URL := None |})
  = ["https://shop.example"; "https://admin.example"; ""]
  /\ (ALLOWED_ORIGINS (env (Sample.process_of
         {| PORT := None; NODE_ENV := None; ALLOWED_ORIGINS := Some "";
            USER_SERVICE_URL := None; PRODUCT_SERVICE_URL := None;
            ORDER_SERVICE_URL := None |})) = Some ""
      /\ allowed_origins (Sample.process_of
            {| PORT := None; NODE_ENV := None; ALLOWED_ORIGINS := Some "";
               USER_SERVICE_URL := None; PRODUCT_SERVICE_URL := None;
               ORDER_SERVICE_URL := None |}) = [""]).
Proof.
  split; [reflexivity|]. split; [reflexivity|].
  apply (allowed_origins_are_the_pieces
           (Sample.process_of
              {| PORT := None; NODE_ENV := None; ALLOWED_ORIGINS := Some "";
                 USER_SERVICE_URL := None; PRODUCT_SERVICE_URL := None;
                 ORDER_SERVICE_URL := None |})).
  reflexivity.
Defined.

Section Advertised.
Context (V : vendor) (P : process) (W : world).

(** The root endpoint advertises what is mounted: a GET of any path it
    lists under [endpoints] that passes the middleware is taken by the
    health router, the documentation or a proxy, never by the 404
    handler. *)
Theorem advertised_paths_are_mounted (h : gmap string nat) (r r0 : request)
                                     (c0 : ctx) :
  In (path r) (advertised P r0 c0) -> method r = GET ->
  passes V P h r = true ->
  exists o, handle (start V P W) h r = Some o
    /\ ~ In NotFoundHandler (visited (final o))
    /\ exists s, last (visited (final o)) = Some s
                 /\ (s = HealthRouter \/ s = ApiDocs \/ exists u, s = Proxy u).
Proof.
  intros Hin Hm Hpass.
  rewrite handle_start, (dispatch_passes _ _ _ _ _ Hpass).
  eexists. split; [reflexivity|].
  assert (Hin' : In (path r)
            ["/health"; "/api/users"; "/api/auth"; "/api/products";
             "/api/categories"; "/api/inventory"; "/api/orders";
             "/api/cart"; "/api-docs"]).
  { unfold advertised, root, res_json, written in Hin.
    destruct (method r0); cbn in Hin; try contradiction; exact Hin. }
  clear Hin. rename Hin' into Hin. cbn [In] in Hin.
  assert (Hv : exists b : bool,
    visited (entered V P h r)
    = ([Helmet; Cors] ++ (if b then [RateLimiter] else [])
       ++ [JsonParser; UrlencodedParser; RequestLogger])%list)
    by (eexists; reflexivity).
  destruct Hv as [b Hv].
  assert (Hroute : forall p u, In (p, u) routes -> path r = p ->
    ~ In NotFoundHandler
        (visited (final (dispatch (endpoints V P (proxy_of P W)) r None
                           (entered V P h r))))
    /\ exists s,
         last (visited (final (dispatch (endpoints V P (proxy_of P W)) r None
                                 (entered V P h r)))) = Some s
         /\ (s = HealthRouter \/ s = ApiDocs \/ exists u, s = Proxy u)).
  { intros p u Hr Hp.
    assert (Hu : under p r = true).
    { unfold under. rewrite Hp. clear -Hr. cbn [In routes] in Hr.
      repeat destruct Hr as [Hr|Hr]; try contradiction; simplify_eq;
        reflexivity. }
    rewrite (endpoints_routed _ _ _ _ _ _ _ Hr Hu), proxied_visited, Hv.
    split.
    - destruct b; cbn; intros H;
        repeat destruct H as [H|H]; try discriminate; exact H.
    - exists (Proxy u). split; [|eauto]. now rewrite last_snoc. }
  repeat destruct Hin as [Hin|Hin]; try contradiction;
    try (eapply Hroute; [|symmetry; exact Hin]; cbn; now auto 10).
  - assert (Hh : use_match "/health" (path r) = Some "/")
      by now rewrite <- Hin.
    assert (Hg : get_method (method r) = true) by now rewrite Hm.
    rewrite (endpoints_health V P _ r _ "/" Hh Hg eq_refl).
    unfold Health.health.
    destruct (memoryUsage P); cbn; destruct (under "/api/" r); cbn;
      (split; [intros H; repeat destruct H as [H|H];
               try discriminate; exact H|]);
      exists HealthRouter; auto.
  - assert (Hd : docs_endpoint r = true)
      by (unfold docs_endpoint, under; now rewrite <- Hin).
    rewrite (endpoints_docs V P _ r _ Hd). cbn.
    destruct (under "/api/" r); cbn;
      (split; [intros H; repeat destruct H as [H|H];
               try discriminate; exact H|]);
      exists ApiDocs; auto.
Qed.

End Advertised.

(** A GET of the cart path, which the root endpoint lists. *)
Lemma advertised_paths_are_mounted_witness :
  In (path (Sample.req GET "/api/cart" ""))
     (advertised Sample.P0 (Sample.req GET "/" "") (fresh ∅))
  /\ method (Sample.req GET "/api/cart" "") = GET
  /\ passes Sample.vendor0 Sample.P0 ∅ (Sample.req GET "/api/cart" "") = true
  /\ exists o,
       handle (start Sample.vendor0 Sample.P0 Sample.W_up) ∅
              (Sample.req GET "/api/cart" "") = Some o
       /\ ~ In NotFoundHandler (visited (final o))
       /\ exists s, last (visited (final o)) = Some s
                    /\ (s = HealthRouter \/ s = ApiDocs
                        \/ exists u, s = Proxy u).
Proof.
  assert (Hin : In (path (Sample.req GET "/api/cart" ""))
                   (advertised Sample.P0 (Sample.req GET "/" "") (fresh ∅)))
    by (cbn; auto 10).
  assert (Hp : passes Sample.vendor0 Sample.P0 ∅
                 (Sample.req GET "/api/cart" "") = true) by reflexivity.
  split; [exact Hin|]. split; [reflexivity|]. split; [exact Hp|].
  exact (advertised_paths_are_mounted Sample.vendor0 Sample.P0 Sample.W_up ∅
           (Sample.req GET "/api/cart" "") (Sample.req GET "/" "") (fresh ∅)
           Hin eq_refl Hp).
Defined.

Section Spelling.
Context (V : vendor) (P : process) (W : world).

Lemma ci_strip_spelling (p s s' rest : string) :
  lower_string s = lower_string s' -> ci_strip p s = Some rest ->
  exists rest', ci_strip p s' = Some rest'
                /\ lower_string rest = lower_string rest'.
Proof.
  revert s s'. induction p as [|a p IH]; intros s s' Hl Hs.
  - cbn in Hs. simplify_eq. exists s'. now split.
  - destruct s as [|d s]; [discriminate|].
    destruct s' as [|d' s']; [discriminate|].
    cbn [lower_string] in Hl. injection Hl as Hd Hl.
    rewrite ci_strip_cons in *. rewrite <- Hd.
    destruct (Ascii.eqb (lower a) (lower d)); [|discriminate].
    now apply (IH s s').
Qed.

Lemma use_match_spelling (m s s' : string) :
  lower_string s = lower_string s' ->
  is_some (use_match m s) = true -> is_some (use_match m s') = true.
Proof.
  unfold use_match. intros Hl H.
  destruct (ci_strip (chop_slash m) s) as [rest|] eqn:E; [|discriminate].
  destruct (ci_strip_spelling _ _ _ _ Hl E) as (rest' & -> & Hr).
  destruct rest as [|c rest]; destruct rest' as [|c' rest'];
    try discriminate; try reflexivity.
  cbn [lower_string] in Hr. injection Hr as Hc _.
  assert (c = "/"%char) as ->.
  { destruct c as [[] [] [] [] [] [] [] []]; try discriminate; reflexivity. }
  apply lower_slash in Hc. subst c'.
  now destruct rest' as [|[[] [] [] [] [] [] [] []] ?].
Qed.

(** Routing does not look at the case of letters: a request whose path
    differs from a routed one in the case of its letters only goes to the
    same upstream, and is forwarded under its own spelling. *)
Theorem routing_ignores_letter_case (h : gmap string nat) (r r' : request)
                                    (p : string) (u : upstream) :
  lower_string (path r) = lower_string (path r') ->
  In (p, u) routes -> under p r = true -> passes V P h r' = true ->
  exists o, handle (start V P W) h r' = Some o
    /\ sent (final o) = [(u, call_for P u r')]
    /\ call_url (call_for P u r') = originalUrl r'.
Proof.
  intros Hl Hin Hp Hpass.
  assert (Hp' : under p r' = true)
    by (unfold under in *; now apply (use_match_spelling p (path r))).
  rewrite handle_start, (dispatch_passes _ _ _ _ _ Hpass),
    (endpoints_routed _ _ _ _ _ _ _ Hin Hp').
  eexists. split; [reflexivity|]. rewrite proxied_sent. now split.
Qed.

End Spelling.

(** A user path in capitals. *)
Lemma routing_ignores_letter_case_witness :
  lower_string (path (Sample.req GET "/api/users/7" ""))
  = lower_string (path (Sample.req GET "/API/Users/7" ""))
  /\ In ("/api/users", UserService) routes
  /\ under "/api/users" (Sample.req GET "/api/users/7" "") = true
  /\ passes Sample.vendor0 Sample.P0 ∅ (Sample.req GET "/API/Users/7" "") = true
  /\ exists o,
       handle (start Sample.vendor0 Sample.P0 Sample.W_up) ∅
              (Sample.req GET "/API/Users/7" "") = Some o
       /\ sent (final o)
          = [(UserService,
              call_for Sample.P0 UserService (Sample.req GET "/API/Users/7" ""))]
       /\ call_url (call_for Sample.P0 UserService
                      (Sample.req GET "/API/Users/7" ""))
          = originalUrl (Sample.req GET "/API/Users/7" "").
Proof.
  assert (Hl : lower_string (path (Sample.req GET "/api/users/7" ""))
               = lower_string (path (Sample.req GET "/API/Users/7" "")))
    by reflexivity.
  assert (Hin : In ("/api/users", UserService) routes) by (cbn; auto 10).
  assert (Hu : under "/api/users" (Sample.req GET "/api/users/7" "") = true)
    by reflexivity.
  assert (Hp : passes Sample.vendor0 Sample.P0 ∅
                 (Sample.req GET "/API/Users/7" "") = true) by reflexivity.
  do 4 (split; [assumption|]).
  exact (routing_ignores_letter_case Sample.vendor0 Sample.P0 Sample.W_up ∅
           (Sample.req GET "/api/users/7" "") (Sample.req GET "/API/Users/7" "")
           "/api/users" UserService Hl Hin Hu Hp).
Defined.

Section Boundary.
Context (V : vendor) (P : process) (W : world).

Lemma ci_strip_self (p x : string) : ci_strip p (p ++ x) = Some x.
Proof.
  induction p as [|a p IH]; [reflexivity|].
  change (String a p ++ x) with (String a (p ++ x)).
  now rewrite ci_strip_cons, Ascii.eqb_refl.
Qed.

Lemma use_match_apart (m1 m2 s x : string) :
  ci_strip (chop_slash m1) s = Some x ->
  related (chop_slash m1) (chop_slash m2) = false ->
  use_match m2 s = None.
Proof.
  intros E1 Hrel. unfold use_match.
  destruct (ci_strip (chop_slash m2) s) as [y|] eqn:E2; [|reflexivity].
  rewrite (ci_strip_related _ _ _ _ _ E1 E2) in Hrel. discriminate.
Qed.

Lemma use_match_boundary (m : string) (c : ascii) (rest : string) :
  is_slash c = false ->
  use_match m (chop_slash m ++ String c rest) = None.
Proof.
  intros Hc. unfold use_match. rewrite ci_strip_self.
  destruct c as [[] [] [] [] [] [] [] []]; try reflexivity. discriminate.
Qed.

(** A route prefix matches whole path segments: a path that continues the
    text of a prefix within the segment (as [/api/usersx] does) is under
    no route and no upstream is called.  Once past the middleware it gets
    the gateway's 404 when the path can be decoded; a path that cannot
    (as [/api/users%]) gets the 500 of the error middleware. *)
Theorem prefix_matches_whole_segments (h : gmap string nat) (r : request)
    (p : string) (u : upstream) (c : ascii) (rest : string) :
  In (p, u) routes -> path r = p ++ String c rest -> is_slash c = false ->
  passes V P h r = true ->
  exists o, handle (start V P W) h r = Some o
    /\ unrouted r = true
    /\ sent (final o) = []
    /\ (decodable (path r) = true ->
        reply o = Some {|
          status := 404;
          res_headers := out_headers (entered V P h r);
          body := written r (PJson (JObject [
            ("error", JString "Endpoint not found");
            ("path", JString (originalUrl r));
            ("method", JString (method_name (method r))) ])) |})
    /\ (decodable (path r) = false ->
        reply o = reply (error_reply P r (decode_error (path r))
                           (entered V P h r))).
Proof.
  intros Hin Hpath Hc Hpass.
  assert (Hstrip : ci_strip (chop_slash p) (path r) = Some (String c rest)).
  { rewrite Hpath. clear -Hin. cbn [In routes] in Hin.
    repeat destruct Hin as [Hin|Hin]; try contradiction; simplify_eq;
      apply (ci_strip_self _ (String c rest)). }
  assert (Hself : use_match p (path r) = None).
  { rewrite Hpath. clear -Hin Hc. cbn [In routes] in Hin.
    repeat destruct Hin as [Hin|Hin]; try contradiction; simplify_eq;
      exact (use_match_boundary _ c rest Hc). }
  assert (Hun : unrouted r = true).
  { apply unrouted_spec. intros q v Hq.
    destruct (decide (q = p)) as [->|Hne]; [exact Hself|].
    apply (use_match_apart p q _ _ Hstrip).
    clear -Hin Hq Hne. cbn [In routes] in Hin, Hq.
    repeat destruct Hin as [Hin|Hin]; try contradiction;
      repeat destruct Hq as [Hq|Hq]; try contradiction;
      simplify_eq; try reflexivity; contradiction. }
  assert (Hd : docs_endpoint r = false).
  { unfold docs_endpoint, under.
    rewrite (use_match_apart p "/api-docs" _ _ Hstrip); [reflexivity|].
    clear -Hin. cbn [In routes] in Hin.
    repeat destruct Hin as [Hin|Hin]; try contradiction; simplify_eq;
      reflexivity. }
  assert (Hh : health_endpoint r = false).
  { unfold health_endpoint.
    rewrite (use_match_apart p "/health" _ _ Hstrip); [reflexivity|].
    clear -Hin. cbn [In routes] in Hin.
    repeat destruct Hin as [Hin|Hin]; try contradiction; simplify_eq;
      reflexivity. }
  assert (Hr : root_endpoint r = false).
  { unfold root_endpoint.
    destruct (route_match "/" (path r)) eqn:E; [|apply andb_false_r].
    exfalso. rewrite Hpath in E. clear -Hin E. cbn [In routes] in Hin.
    repeat destruct Hin as [Hin|Hin]; try contradiction; simplify_eq;
      destruct (route_match_root _ E); discriminate. }
  rewrite handle_start, (dispatch_passes _ _ _ _ _ Hpass).
  eexists. split; [reflexivity|].
  destruct (endpoints_own V P (proxy_of P W) r (entered V P h r) Hun)
    as (_ & Hs & _).
  split; [exact Hun|]. split; [exact Hs|]. split; intros Hdec.
  - apply (endpoints_not_found V P (proxy_of P W) r (entered V P h r)
             Hun Hd Hh Hr Hdec).
  - apply (endpoints_undecodable V P (proxy_of P W) r (entered V P h r)
             Hun Hd Hh Hr Hdec).
Qed.

End Boundary.

(** The paths [/api/usersx] and [/api/users%]. *)
Lemma prefix_matches_whole_segments_witness :
  (In ("/api/users", UserService) routes
   /\ path (Sample.req GET "/api/usersx" "") = "/api/users" ++ String "x" ""
   /\ is_slash "x" = false
   /\ passes Sample.vendor0 Sample.P0 ∅ (Sample.req GET "/api/usersx" "") = true
   /\ decodable (path (Sample.req GET "/api/usersx" "")) = true
   /\ exists o,
        handle (start Sample.vendor0 Sample.P0 Sample.W_up) ∅
               (Sample.req GET "/api/usersx" "") = Some o
        /\ status <$> reply o = Some 404%Z
        /\ sent (final o) = [])
  /\ (path (Sample.req GET "/api/users%" "") = "/api/users" ++ String "%" ""
      /\ is_slash "%" = false
      /\ passes Sample.vendor0 Sample.P0 ∅
           (Sample.req GET "/api/users%" "") = true
      /\ decodable (path (Sample.req GET "/api/users%" "")) = false
      /\ exists o,
           handle (start Sample.vendor0 Sample.P0 Sample.W_up) ∅
                  (Sample.req GET "/api/users%" "") = Some o
           /\ status <$> reply o = Some 500%Z
           /\ sent (final o) = []).
Proof.
  assert (Hin : In ("/api/users", UserService) routes) by (cbn; auto 10).
  assert (Hp : passes Sample.vendor0 Sample.P0 ∅
                 (Sample.req GET "/api/usersx" "") = true) by reflexivity.
  assert (Hp' : passes Sample.vendor0 Sample.P0 ∅
                  (Sample.req GET "/api/users%" "") = true) by reflexivity.
  split.
  - split; [exact Hin|]. do 2 (split; [reflexivity|]). split; [exact Hp|].
    split; [reflexivity|].
    destruct (prefix_matches_whole_segments Sample.vendor0 Sample.P0
                Sample.W_up ∅ (Sample.req GET "/api/usersx" "") "/api/users"
                UserService "x" "" Hin eq_refl eq_refl Hp)
      as (o & Ho & _ & Hs & H404 & _).
    exists o. split; [exact Ho|]. split; [|exact Hs].
    now rewrite (H404 eq_refl).
  - do 2 (split; [reflexivity|]). split; [exact Hp'|].
    split; [reflexivity|].
    destruct (prefix_matches_whole_segments Sample.vendor0 Sample.P0
                Sample.W_up ∅ (Sample.req GET "/api/users%" "") "/api/users"
                UserService "%" "" Hin eq_refl eq_refl Hp')
      as (o & Ho & _ & Hs & _ & H500).
    exists o. split; [exact Ho|]. split; [|exact Hs].
    now rewrite (H500 eq_refl).
Defined.

Section UserServiceHealth.
Import UserService.

(** The connection test of the user service succeeds exactly when a pool
    exists or can be created and the ping goes through; the pool is kept
    once created and created only when missing; and when the test throws,
    the error thrown is the one in its last log line. *)
Theorem test_connection_outcome (M : mysql) (pool : bool) :
  let '(tested, pool', logged) := testConnection M pool in
  ((exists x, tested = inr x) <->
   (pool = true \/ exists x, createPool M = inr x)
   /\ exists x, ping M = inr x)
  /\ (pool' = true <-> pool = true \/ exists x, createPool M = inr x)
  /\ (pool = true ->
      ~ In (info "Database pool created successfully") logged)
  /\ (forall e, tested = inl e ->
      last logged = Some (failed "Database connection test failed:" e)).
Proof.
  unfold testConnection, connect.
  destruct pool; [|destruct (createPool M) as [e|[]]];
    destruct (ping M) as [e'|[]]; cbn;
    repeat split; intros; simplify_eq;
    repeat match goal with
    | H : exists _, _ |- _ => destruct H
    | H : _ /\ _ |- _ => destruct H
    | H : _ \/ _ |- _ => destruct H
    end; simplify_eq; eauto; try tauto;
    try (intros [H|[]]; discriminate).
Qed.

(** The health route of the user service never disagrees with itself: the
    status code is 200 exactly when the body says [healthy], and that is
    exactly when the connection test and the memory probe both succeed;
    otherwise it is 503.  With the database down it still reports the
    database as [disconnected] in a full report. *)
Theorem user_health_code_matches_status (P : process) (M : mysql)
                                        (pool : bool) :
  let a := health P M pool in
  (code a = 200%Z <-> field "status" (json_body a) = Some (JString "healthy"))
  /\ (code a = 200%Z \/ code a = 503%Z)
  /\ (code a = 200%Z <->
      (exists x, fst (fst (testConnection M pool)) = inr x)
      /\ exists m, memoryUsage P = inr m)
  /\ ((exists e, fst (fst (testConnection M pool)) = inl e) ->
      (exists m, memoryUsage P = inr m) ->
      field "database" (json_body a) = Some (JString "disconnected")
      /\ is_some (field "memory" (json_body a)) = true).
Proof.
  unfold health.
  destruct (testConnection M pool) as [[[e|[]] pool'] logged];
    destruct (memoryUsage P) as [e'|m]; cbn;
    repeat split; intros; simplify_eq;
    repeat match goal with
    | H : exists _, _ |- _ => destruct H
    | H : _ /\ _ |- _ => destruct H
    end; simplify_eq; eauto.
Qed.

(** The readiness route of the user service tells the client that the
    database connection failed and nothing more: the 503 body is the same
    for every error, and the error itself goes to the log. *)
Theorem user_ready_hides_database_error (P : process) (M : mysql)
                                        (pool : bool) (e : error) :
  fst (fst (testConnection M pool)) = inl e ->
  code (ready P M pool) = 503%Z
  /\ json_body (ready P M pool) = JObject [
       ("status", JString "not ready");
       ("service", JString "user-service");
       ("timestamp", JString (now P));
       ("error", JString "Database connection failed") ]
  /\ last (lines (ready P M pool))
     = Some (failed "Readiness check failed:" e).
Proof.
  unfold ready.
  destruct (testConnection M pool) as [[[e0|[]] pool'] logged]; cbn;
    intros H; simplify_eq.
  repeat split. now rewrite last_snoc.
Qed.

End UserServiceHealth.

(** The readiness route with a database that refuses the ping. *)
Lemma user_ready_hides_database_error_witness :
  fst (fst (UserService.testConnection
              {| UserService.createPool := inr tt;
                 UserService.ping := inl (Error "connect ECONNREFUSED user_db" "") |}
              false))
  = inl (Error "connect ECONNREFUSED user_db" "")
  /\ UserService.code
       (UserService.ready Sample.P0
          {| UserService.createPool := inr tt;
             UserService.ping := inl (Error "connect ECONNREFUSED user_db" "") |}
          false) = 503%Z.
Proof.
  split; [reflexivity|].
  exact (proj1 (user_ready_hides_database_error Sample.P0
                  {| UserService.createPool := inr tt;
                     UserService.ping :=
                       inl (Error "connect ECONNREFUSED user_db" "") |}
                  false (Error "connect ECONNREFUSED user_db" "") eq_refl)).
Defined.
